(** * Camera-trap detection pipeline: a shallow embedding and its properties

    The development follows the Python sources of the repository:

    - [backend/lambda/common/utils.py]: module [Utils]
    - [backend/lambda/detection_pipeline/megadetector.py]: module [MegaDetector]
    - [backend/lambda/detection_pipeline/speciesnet.py]: module [SpeciesNet]
    - [backend/lambda/detection_pipeline/database.py]: module [Database]
    - [backend/lambda/detection_pipeline/handler.py]: modules [PathParser]
      and [Handler]

    Part I holds the definitions, a module per source file; Part II holds
    the theorems, a section per subject.

    Numbers.  Confidences and GPS coordinates are binary64 floats, as in the
    code (Rocq's primitive floats; a decimal literal such as [0.9] denotes
    the nearest binary64 value, as it does in Python).  The image-quality
    scores and the crop
    geometry are stated over the rationals; where they are, the module says
    what is assumed of rounding. *)

From Stdlib Require Import ZArith QArith Qround Qabs Qminmax String Ascii Floats Lia.
From stdpp Require Import gmap strings list fin_maps option.

Set Warnings "-register-all,-inexact-float".

Open Scope string_scope.
Open Scope Z_scope.

(* ===================================================================== *)
(** * Part I. Definitions                                                 *)
(* ===================================================================== *)

(** Python [bytes]. *)
Definition bytes : Type := list Byte.byte.

(** ** Python strings *)

Module PyStr.

(** [str.split(sep)] for a one-character separator: every occurrence of
    the separator cuts, empty pieces are kept, and the result is never
    empty ([''.split('/') == ['']]). *)
Fixpoint split (sep : ascii) (s : string) : list string :=
  match s with
  | EmptyString => [EmptyString]
  | String c rest =>
      if Ascii.eqb c sep then EmptyString :: split sep rest
      else match split sep rest with
           | p :: ps => String c p :: ps
           | [] => [String c EmptyString]
           end
  end.

(** [sep.join(parts)]. *)
Fixpoint join (sep : ascii) (parts : list string) : string :=
  match parts with
  | [] => EmptyString
  | [p] => p
  | p :: ps => p ++ String sep (join sep ps)
  end.

(** [c in s]. *)
Fixpoint contains (c : ascii) (s : string) : bool :=
  match s with
  | EmptyString => false
  | String d rest => Ascii.eqb d c || contains c rest
  end.

End PyStr.

(** ** handler.py, the path parser *)

Module PathParser.

(** The dictionary [parse_s3_path] returns has six fixed keys; a value is
    a segment of the key or Python's [None]. *)
Record path_metadata : Type := PathMetadata {
  project_name : option string;
  country : option string;
  client : option string;
  camera_id : option string;
  date : option string;
  file_name : option string
}.

(** [parts[i] if len(parts) > i else None]. *)
Definition segment (parts : list string) (i : nat) : option string :=
  if decide (i < length parts)%nat then parts !! i else None.

(** [parts[-1] if len(parts) > 0 else None]. *)
Definition last_segment (parts : list string) : option string :=
  if decide (0 < length parts)%nat then list.last parts else None.

Definition parse_s3_path (s3_key : string) : path_metadata :=
  let parts := PyStr.split "/" s3_key in
  {| project_name := segment parts 0;
     country := segment parts 1;
     client := segment parts 2;
     camera_id := segment parts 3;
     date := segment parts 4;
     file_name := last_segment parts |}.

End PathParser.

(** ** utils.py, GPS decoding *)

Module Utils.

(** A value of the EXIF GPS block as the decoder library hands it over.  A
    number (an integer, a float or a rational of the decoder) is identified
    with the binary64 value Python's [float()] gives for it; comparing it
    with the integer [1] is then comparing that value with [1.0]. *)
Inductive exif_value : Type :=
| XStr (s : string)
| XNum (f : float)
| XTuple (items : list exif_value).

Section Gps.

(** [float(s)] on a string: Python parses a numeric literal or raises
    [ValueError]; the parser is a parameter of the model. *)
Variable str_to_float : string → option float.

(** [float(v)]; [None] stands for the exception Python raises. *)
Definition py_float (v : exif_value) : option float :=
  match v with
  | XNum f => Some f
  | XStr s => str_to_float s
  | XTuple _ => None
  end.

(** [d, m, s = value]: unpacking wants exactly three items; a string of
    three characters unpacks into its characters. *)
Definition unpack3 (value : exif_value)
  : option (exif_value * exif_value * exif_value) :=
  match value with
  | XTuple [d; m; s] => Some (d, m, s)
  | XStr (String a (String b (String c EmptyString))) =>
      Some (XStr (String a EmptyString), XStr (String b EmptyString),
            XStr (String c EmptyString))
  | _ => None
  end.

Definition convert_to_degrees (value : exif_value) : option float :=
  match unpack3 value with
  | Some (d, m, s) =>
      match py_float d, py_float m, py_float s with
      | Some fd, Some fm, Some fs => Some (fd + fm / 60 + fs / 3600)%float
      | _, _, _ => None
      end
  | None => None
  end.

(** [v == 'S'] and the like. *)
Definition is_str (v : exif_value) (s : string) : bool :=
  match v with
  | XStr t => String.eqb t s
  | _ => false
  end.

(** [v == 1]. *)
Definition is_one (v : exif_value) : bool :=
  match v with
  | XNum f => PrimFloat.eqb f 1
  | _ => false
  end.

Definition negate_if (b : bool) (x : float) : float :=
  if b then (- x)%float else x.

(** The three blocks of the [try] body of [extract_gps_data]; each takes
    the dictionary built so far, and [None] is a raised exception. *)
Definition gps_latitude_block (gps_info : gmap Z exif_value)
    (gps_data : gmap string float) : option (gmap string float) :=
  match gps_info !! 1, gps_info !! 2 with
  | Some ref, Some value =>
      match convert_to_degrees value with
      | Some lat => Some (<["gps_latitude" := negate_if (is_str ref "S") lat]> gps_data)
      | None => None
      end
  | _, _ => Some gps_data
  end.

Definition gps_longitude_block (gps_info : gmap Z exif_value)
    (gps_data : gmap string float) : option (gmap string float) :=
  match gps_info !! 3, gps_info !! 4 with
  | Some ref, Some value =>
      match convert_to_degrees value with
      | Some lon => Some (<["gps_longitude" := negate_if (is_str ref "W") lon]> gps_data)
      | None => None
      end
  | _, _ => Some gps_data
  end.

Definition below_sea_level (gps_info : gmap Z exif_value) : bool :=
  match gps_info !! 5 with
  | Some flag => is_one flag
  | None => false
  end.

Definition gps_altitude_block (gps_info : gmap Z exif_value)
    (gps_data : gmap string float) : option (gmap string float) :=
  match gps_info !! 6 with
  | Some value =>
      match py_float value with
      | Some altitude =>
          Some (<["gps_altitude" := negate_if (below_sea_level gps_info) altitude]> gps_data)
      | None => None
      end
  | None => Some gps_data
  end.

(** [extract_gps_data]: the result is Python's [None] when the dictionary
    stays empty and when anything in the body raised. *)
Definition extract_gps_data (gps_info : gmap Z exif_value)
  : option (gmap string float) :=
  match gps_latitude_block gps_info ∅ with
  | Some d1 =>
      match gps_longitude_block gps_info d1 with
      | Some d2 =>
          match gps_altitude_block gps_info d2 with
          | Some gps_data =>
              if decide (size gps_data = 0%nat) then None else Some gps_data
          | None => None
          end
      | None => None
      end
  | None => None
  end.

End Gps.

(** *** Image quality

    The quality scores are modelled in exact rational arithmetic: a score
    is the rational the formula denotes, binary64 rounding error is not
    part of the model. *)

(** [sum(xs)]. *)
Definition Qsum (xs : list Q) : Q := fold_right Qplus 0%Q xs.

(** [np.mean] of the flattened array. *)
Definition np_mean (xs : list Q) : Q :=
  (Qsum xs / inject_Z (Z.of_nat (length xs)))%Q.

(** [np.var] (population variance: the mean of the squared deviations). *)
Definition np_var (xs : list Q) : Q :=
  let mu := np_mean xs in
  np_mean (List.map (fun x => (x - mu) * (x - mu))%Q xs).

(** A decoded single-channel image: the rows of an H x W array. *)
Definition grid : Type := list (list Z).

Definition height (img : grid) : Z := Z.of_nat (length img).
Definition width (img : grid) : Z :=
  match img with
  | [] => 0
  | row :: _ => Z.of_nat (length row)
  end.


Definition pixel (img : grid) (i j : Z) : Z :=
  nth (Z.to_nat j) (nth (Z.to_nat i) img []) 0.

(** [boundary='symm']: the array is mirrored at its edges, the edge sample
    included; a 3 x 3 kernel reaches one sample past an edge. *)
Definition symm_index (n k : Z) : Z :=
  if k <? 0 then - k - 1 else if n <=? k then 2 * n - 1 - k else k.

Definition pixel_symm (img : grid) (i j : Z) : Z :=
  pixel img (symm_index (height img) i) (symm_index (width img) j).

Definition laplacian : grid := [[0; 1; 0]; [1; -4; 1]; [0; 1; 0]].

Definition Zsum (xs : list Z) : Z := fold_right Z.add 0 xs.

(** One sample of [signal.convolve2d(img, kernel, mode='same',
    boundary='symm')] for a 3 x 3 kernel: a true convolution, the kernel
    is applied flipped. *)
Definition convolve_at (img kernel : grid) (i j : Z) : Z :=
  Zsum (List.map (fun a =>
    Zsum (List.map (fun b =>
      pixel kernel a b * pixel_symm img (i + 1 - a) (j + 1 - b))
      [0; 1; 2]))
    [0; 1; 2]).

Definition range (n : Z) : list Z := List.map Z.of_nat (seq 0 (Z.to_nat n)).

Definition convolve2d (img kernel : grid) : grid :=
  List.map (fun i => List.map (fun j => convolve_at img kernel i j)
                              (range (width img)))
           (range (height img)).

(** Rounding to the nearest integer, ties to even. *)
Definition round_half_even (x : Q) : Z :=
  let n := Qfloor x in
  match (x - inject_Z n ?= 1 # 2)%Q with
  | Lt => n
  | Gt => n + 1
  | Eq => if Z.even n then n else n + 1
  end.

(** [round(x, ndigits)]. *)
Definition py_round (x : Q) (ndigits : nat) : Q :=
  let scale := inject_Z (10 ^ Z.of_nat ndigits) in
  Qred (inject_Z (round_half_even (x * scale)) / scale).

(** [min(a, b)]. *)
Definition py_min (a b : Q) : Q := if Qlt_le_dec b a then b else a.

(** The dictionary [calculate_image_quality] returns has three fixed keys. *)
Record quality : Type := Quality {
  brightness : Q;
  sharpness : Q;
  overall : Q
}.

Definition to_Q (xs : list Z) : list Q := List.map inject_Z xs.

Section Quality.

(** [np.array(Image.open(io.BytesIO(image_bytes)).convert('L'))]: the
    decoder is outside the repository; [None] is a raised exception. *)
Variable decode_gray : bytes → option grid.

Definition calculate_image_quality (image_bytes : bytes) : quality :=
  match decode_gray image_bytes with
  | Some img_array =>
      let brightness := (np_mean (to_Q (concat img_array)) / 255)%Q in
      let lap := convolve2d img_array laplacian in
      let sharpness := np_var (to_Q (concat lap)) in
      let sharpness_normalized := py_min (sharpness / 500)%Q 1%Q in
      let brightness_quality := (1 - Qabs (brightness - (1 # 2)) * 2)%Q in
      let overall :=
        (brightness_quality * (3 # 10) + sharpness_normalized * (7 # 10))%Q in
      {| brightness := py_round brightness 4;
         sharpness := py_round sharpness_normalized 4;
         overall := py_round overall 4 |}
  | None =>
      {| brightness := 1 # 2; sharpness := 1 # 2; overall := 1 # 2 |}
  end.

End Quality.

(** *** The quality scorer as the specification words it *)







End Utils.

(** ** megadetector.py, the crop rectangle *)

Module MegaDetector.

(** The values of [CATEGORIES] and the fallback ['unknown']. *)
Inductive category : Type := Animal | Person | Vehicle | Unknown.

Definition category_name (c : category) : string :=
  match c with
  | Animal => "animal"
  | Person => "person"
  | Vehicle => "vehicle"
  | Unknown => "unknown"
  end.

(** [int(x)] on a float: truncation toward zero. *)
Definition py_int (x : Q) : Z :=
  if Qlt_le_dec x 0 then Qceiling x else Qfloor x.

(** The binary64 value of the literal [0.1]. *)
Definition padding : Q := 3602879701896397 # 36028797018963968.

Section Crop.

(** A float is modelled by the rational it denotes; a product of floats is
    the exact product rounded to binary64 by [fl].  What the theorems need
    of the rounding is stated where they are proved. *)
Variable fl : Q → Q.

(** [Image.open(io.BytesIO(image_bytes)).convert('RGB').size]; [None] is a
    raised exception. *)
Variable image_size : bytes → option (Z * Z).

Definition fmul (a b : Q) : Q := fl (a * b).

(** An integer operand of a float product is converted to a float. *)
Definition of_int (z : Z) : Q := fl (inject_Z z).

(** Lines 127 to 142 of [crop_detection]: the rectangle
    [(left, top, right, bottom)] handed to [image.crop].  A bounding box
    with fewer than four entries raises [IndexError]. *)
Definition crop_box (img_width img_height : Z) (bbox : list Q)
  : option (Z * Z * Z * Z) :=
  match bbox !! 0%nat, bbox !! 1%nat, bbox !! 2%nat, bbox !! 3%nat with
  | Some b0, Some b1, Some b2, Some b3 =>
      let x := py_int (fmul b0 (of_int img_width)) in
      let y := py_int (fmul b1 (of_int img_height)) in
      let width := py_int (fmul b2 (of_int img_width)) in
      let height := py_int (fmul b3 (of_int img_height)) in
      let pad_x := py_int (fmul (of_int width) padding) in
      let pad_y := py_int (fmul (of_int height) padding) in
      let left := Z.max 0 (x - pad_x) in
      let top := Z.max 0 (y - pad_y) in
      let right := Z.min img_width (x + width + pad_x) in
      let bottom := Z.min img_height (y + height + pad_y) in
      Some (left, top, right, bottom)
  | _, _, _, _ => None
  end.

(** [crop_detection] up to the call of [image.crop]; cutting the pixels
    and encoding them as JPEG is the imaging library's work. *)
Definition crop_detection (image_bytes : bytes) (bbox : list Q)
  : option (Z * Z * Z * Z) :=
  match image_size image_bytes with
  | Some (img_width, img_height) => crop_box img_width img_height bbox
  | None => None
  end.

End Crop.

End MegaDetector.

(** ** Python exceptions and values *)

(** An exception: its class and the text [str(e)] gives. *)
Record exn : Type := Exn { exn_type : string; exn_str : string }.

(** [str(KeyError(k))] is the [repr] of the key. *)
Definition KeyError (k : string) : exn := Exn "KeyError" ("'" ++ k ++ "'").

(** ** speciesnet.py *)

Module SpeciesNet.

(** One entry of the list [classify] builds (lines 115 to 126). *)
Record prediction : Type := Prediction {
  class_id : Z;
  confidence : float;
  scientific_name : string;
  common_name : string;
  taxonomy : option (list (string * string))
}.

Section Classify.

(** Lines 95 to 126: preprocessing, the forward pass and [torch.topk],
    turned into the prediction list, descending by confidence.  The network
    is outside the repository; [inl] is a raised exception. *)
Variable model_top_k : bytes → nat → exn + list prediction.

(** [self.confidence_threshold]. *)
Variable confidence_threshold : float.

(** [p['confidence'] >= self.confidence_threshold]. *)
Definition above_threshold (p : prediction) : bool :=
  PrimFloat.leb confidence_threshold (confidence p).

Definition classify (image_bytes : bytes) (top_k : nat)
  : exn + list prediction :=
  match model_top_k image_bytes top_k with
  | inr predictions => inr (List.filter above_threshold predictions)
  | inl e => inl e
  end.

End Classify.

End SpeciesNet.

(** ** database.py *)

Module Database.

(** The values bound to query parameters and stored in columns.
    [PJson ps] is the text [json.dumps(ps)] of a prediction list,
    identified with the list it serialises; [PTime t] is a timestamp. *)
Inductive pyval : Type :=
| PNone
| PBool (b : bool)
| PInt (z : Z)
| PFloat (f : float)
| PStr (s : string)
| PTime (t : Z)
| PJson (predictions : list SpeciesNet.prediction).

Record row : Type := Row { row_id : Z; row_cols : gmap string pyval }.

(** The three tables the manager writes, the next value of each [id]
    sequence, and the clock [NOW()] reads.  The schema is not part of the
    sources: a column absent from a row's map holds its schema default.
    The server is taken to be reachable: a statement fails only for a reason
    the sources show, a placeholder without a value. *)
Record database : Type := Db {
  images : list row;
  detections : list row;
  species : list row;
  next_image_id : Z;
  next_detection_id : Z;
  next_species_id : Z;
  db_clock : Z
}.

(** [cursor.execute(query, data)] with named placeholders [%(name)s]: the
    driver looks every placeholder up in [data], in the order of the query
    text, and raises [KeyError] at the first one that is missing; keys of
    [data] the query does not name are ignored. *)
Fixpoint bind_params (params : list string) (data : gmap string pyval)
  : exn + gmap string pyval :=
  match params with
  | [] => inr ∅
  | p :: ps =>
      match data !! p with
      | None => inl (KeyError p)
      | Some v =>
          match bind_params ps data with
          | inl e => inl e
          | inr cols => inr (<[p := v]> cols)
          end
      end
  end.

(** Every placeholder of a query has a value. *)
Definition all_bound (params : list string) (data : gmap string pyval) : Prop :=
  ∀ p, In p params → is_Some (data !! p).

Definition insert_image_params : list string :=
  ["s3_bucket"; "s3_key"; "file_name"; "file_size"; "file_hash";
   "width"; "height"; "format"; "camera_id"; "location_id";
   "captured_at"; "project_name"; "client"; "country";
   "exif_data"; "gps_latitude"; "gps_longitude"; "gps_altitude";
   "camera_make"; "camera_model"; "processing_status";
   "brightness_score"; "sharpness_score"; "quality_score"].

Definition insert_detection_params : list string :=
  ["image_id"; "species_id"; "detection_type";
   "bbox_x"; "bbox_y"; "bbox_width"; "bbox_height";
   "megadetector_confidence"; "speciesnet_confidence"; "overall_confidence";
   "species_top5"; "needs_review"].

(** SQL [=] between a stored text and a text value; NULL equals nothing. *)
Definition text_eq (a : option pyval) (b : pyval) : bool :=
  match a, b with
  | Some (PStr s), PStr t => String.eqb s t
  | _, _ => false
  end.

Definition has_key (key : pyval) (r : row) : bool :=
  text_eq (row_cols r !! "s3_key") key.

Definition touch (now : Z) (r : row) : row :=
  Row (row_id r) (<["updated_at" := PTime now]> (row_cols r)).

(** [DO UPDATE SET updated_at = NOW()] on the rows in conflict. *)
Definition touch_matching (key : pyval) (now : Z) (rows : list row) : list row :=
  List.map (fun r => if has_key key r then touch now r else r) rows.

(** [insert_image]: [INSERT ... ON CONFLICT (s3_key) DO UPDATE SET
    updated_at = NOW() RETURNING id].  A row with the same key is touched
    and its id returned; otherwise a row with the next id is added.  On an
    exception the transaction is rolled back: the database is unchanged. *)
Definition insert_image (image_data : gmap string pyval) (db : database)
  : exn + (Z * database) :=
  match bind_params insert_image_params image_data with
  | inl e => inl e
  | inr cols =>
      let key := default PNone (cols !! "s3_key") in
      match List.find (has_key key) (images db) with
      | Some r =>
          inr (row_id r,
               Db (touch_matching key (db_clock db) (images db))
                  (detections db) (species db)
                  (next_image_id db) (next_detection_id db) (next_species_id db)
                  (db_clock db + 1))
      | None =>
          inr (next_image_id db,
               Db (images db ++ [Row (next_image_id db) cols])
                  (detections db) (species db)
                  (next_image_id db + 1) (next_detection_id db) (next_species_id db)
                  (db_clock db + 1))
      end
  end.

Definition opt_str (s : option string) : pyval :=
  match s with
  | Some t => PStr t
  | None => PNone
  end.

Definition set_status (now : Z) (status : string) (error_message : option string)
    (r : row) : row :=
  let c1 := <["processing_status" := PStr status]> (row_cols r) in
  let c2 := <["error_message" := opt_str error_message]> c1 in
  let c3 := if String.eqb status "completed"
            then <["processed_at" := PTime now]> c2 else c2 in
  Row (row_id r) (<["updated_at" := PTime now]> c3).

(** [update_image_status]: [UPDATE images SET ... WHERE id = %s], with
    positional parameters. *)
Definition update_image_status (image_id : Z) (status : string)
    (error_message : option string) (db : database) : database :=
  Db (List.map (fun r => if row_id r =? image_id
                         then set_status (db_clock db) status error_message r
                         else r)
               (images db))
     (detections db) (species db)
     (next_image_id db) (next_detection_id db) (next_species_id db)
     (db_clock db + 1).

(** [insert_detection]: a plain [INSERT ... RETURNING id]. *)
Definition insert_detection (detection_data : gmap string pyval) (db : database)
  : exn + (Z * database) :=
  match bind_params insert_detection_params detection_data with
  | inl e => inl e
  | inr cols =>
      inr (next_detection_id db,
           Db (images db)
              (detections db ++ [Row (next_detection_id db) cols])
              (species db)
              (next_image_id db) (next_detection_id db + 1) (next_species_id db)
              (db_clock db + 1))
  end.

Definition has_name (name : string) (r : row) : bool :=
  text_eq (row_cols r !! "scientific_name") (PStr name).

Definition species_cols (scientific_name : string) (common_name : option string)
  : gmap string pyval :=
  <["scientific_name" := PStr scientific_name]>
  (<["common_name" := opt_str common_name]>
  (<["taxonomy_kingdom" := PNone]>
  (<["taxonomy_phylum" := PNone]>
  (<["taxonomy_class" := PNone]>
  (<["taxonomy_order" := PNone]>
  (<["taxonomy_family" := PNone]>
  (<["taxonomy_genus" := PNone]> ∅))))))).

(** [get_or_create_species] as the handler calls it, without a taxonomy;
    both statements have positional parameters. *)
Definition get_or_create_species (scientific_name : string)
    (common_name : option string) (db : database) : Z * database :=
  match List.find (has_name scientific_name) (species db) with
  | Some r => (row_id r, db)
  | None =>
      (next_species_id db,
       Db (images db) (detections db)
          (species db ++ [Row (next_species_id db)
                              (species_cols scientific_name common_name)])
          (next_image_id db) (next_detection_id db) (next_species_id db + 1)
          (db_clock db + 1))
  end.

End Database.

(** ** handler.py, the pipeline *)

Module Handler.
Import Database.

(** One entry of the list [MegaDetector.detect] returns (lines 97 to 101):
    the category, the confidence and the normalised box [x, y, width,
    height]. *)
Record detection : Type := Detection {
  det_category : MegaDetector.category;
  det_confidence : float;
  det_bbox : float * float * float * float
}.

(** What the pipeline calls and the repository does not contain: object
    storage, the imaging library behind the metadata and crop helpers, the
    two networks and the key-value store.  [inl] is a raised exception.
    [extract_exif_data] and [calculate_image_quality] catch every exception
    themselves, so they are total. *)
Record env : Type := Env {
  get_object : string → string → exn + bytes;
  sha256_hexdigest : bytes → string;
  extract_exif_data : bytes → gmap string pyval;
  json_dumps : gmap string pyval → string;
  calculate_image_quality : bytes → gmap string pyval;
  detect : bytes → exn + list detection;
  crop_detection : bytes → float * float * float * float → exn + bytes;
  model_top_k : bytes → nat → exn + list SpeciesNet.prediction;
  speciesnet_threshold : float;
  put_item_fault : gmap string pyval → option exn
}.

(** The state a run reads and writes: the relational database, the
    tracking table (items by their [file_key]), the clock
    [datetime.utcnow()] reads, and the lines logged at error level. *)
Record world : Type := World {
  w_db : database;
  w_tracking : gmap string (gmap string pyval);
  w_clock : Z;
  w_log : list string
}.

(** Computations that read and write the world and may raise. *)
Definition M (A : Type) : Type := world → (exn + A) * world.

Definition ret {A : Type} (a : A) : M A := fun w => (inr a, w).

Definition bind {A B : Type} (m : M A) (k : A → M B) : M B :=
  fun w =>
    match m w with
    | (inr a, w') => k a w'
    | (inl e, w') => (inl e, w')
    end.

Definition try_except {A : Type} (m : M A) (handler : exn → M A) : M A :=
  fun w =>
    match m w with
    | (inl e, w') => handler e w'
    | (inr a, w') => (inr a, w')
    end.

Notation "x <- m ;; k" := (bind m (fun x => k))
  (at level 100, m at next level, right associativity).

Definition set_db (db : database) (w : world) : world :=
  World db (w_tracking w) (w_clock w) (w_log w).

Definition add_log (msg : string) (w : world) : world :=
  World (w_db w) (w_tracking w) (w_clock w) (w_log w ++ [msg]).

(** [logger.error(msg)]. *)
Definition log_error (msg : string) : M unit :=
  fun w => (inr tt, add_log msg w).

(** [datetime.utcnow()]. *)
Definition utcnow : M Z :=
  fun w => (inr (w_clock w), World (w_db w) (w_tracking w) (w_clock w + 1) (w_log w)).

(** A call of a capability that logs the exception it re-raises. *)
Definition logged {A : Type} (prefix : string) (r : exn + A) : M A :=
  match r with
  | inr a => ret a
  | inl e => _ <- log_error (prefix ++ exn_str e) ;; fun w => (inl e, w)
  end.

(** A call of a [DatabaseManager] method: [get_cursor] commits on
    success, and on an exception rolls back, logs and re-raises. *)
Definition db_call {A : Type} (f : database → exn + (A * database)) : M A :=
  fun w =>
    match f (w_db w) with
    | inr (a, db') => (inr a, set_db db' w)
    | inl e => (inl e, add_log ("Database error: " ++ exn_str e) w)
    end.

Section Pipeline.

Variable E : env.

(** [table.put_item(Item=item)]: the item replaces the one stored under
    its key; the store may refuse or fail. *)
Definition put_item (item : gmap string pyval) : M unit :=
  fun w =>
    match put_item_fault E item with
    | Some e => (inl e, w)
    | None =>
        match item !! "file_key" with
        | Some (PStr k) =>
            (inr tt, World (w_db w) (<[k := item]> (w_tracking w)) (w_clock w) (w_log w))
        | _ => (inl (Exn "ClientError" "ValidationException: file_key"), w)
        end
    end.

(** The item [update_dynamodb_status] writes: the three fixed fields,
    then [update_data.update(metadata)]. *)
Definition update_data (s3_key status : string) (now : Z)
    (metadata : gmap string pyval) : gmap string pyval :=
  metadata ∪
  (<["file_key" := PStr s3_key]>
  (<["processing_status" := PStr status]>
  (<["updated_at" := PTime now]> ∅))).

(** The [try] body of [update_dynamodb_status]. *)
Definition update_dynamodb_status_body (s3_key status : string)
    (metadata : gmap string pyval) : M unit :=
  now <- utcnow ;;
  put_item (update_data s3_key status now metadata).

(** [update_dynamodb_status]; no metadata is the empty dictionary. *)
Definition update_dynamodb_status (s3_key status : string)
    (metadata : gmap string pyval) : M unit :=
  try_except (update_dynamodb_status_body s3_key status metadata)
    (fun e => log_error ("Failed to update DynamoDB: " ++ exn_str e)).

(** [d.get(k)]. *)
Definition dict_get (d : gmap string pyval) (k : string) : pyval :=
  default PNone (d !! k).

(** The [image_record] dictionary of lines 154 to 178. *)
Definition image_record (s3_bucket s3_key : string) (image_bytes : bytes)
  : gmap string pyval :=
  let path_metadata := PathParser.parse_s3_path s3_key in
  let exif_data := extract_exif_data E image_bytes in
  let quality_metrics := calculate_image_quality E image_bytes in
  <["s3_bucket" := PStr s3_bucket]>
  (<["s3_key" := PStr s3_key]>
  (<["file_name" := opt_str (PathParser.file_name path_metadata)]>
  (<["file_size" := PInt (Z.of_nat (length image_bytes))]>
  (<["file_hash" := PStr (sha256_hexdigest E image_bytes)]>
  (<["camera_id" := opt_str (PathParser.camera_id path_metadata)]>
  (<["project_name" := opt_str (PathParser.project_name path_metadata)]>
  (<["client" := opt_str (PathParser.client path_metadata)]>
  (<["country" := opt_str (PathParser.country path_metadata)]>
  (<["captured_at" := dict_get exif_data "captured_at"]>
  (<["exif_data" := PStr (json_dumps E exif_data)]>
  (<["gps_latitude" := dict_get exif_data "gps_latitude"]>
  (<["gps_longitude" := dict_get exif_data "gps_longitude"]>
  (<["gps_altitude" := dict_get exif_data "gps_altitude"]>
  (<["camera_make" := dict_get exif_data "camera_make"]>
  (<["camera_model" := dict_get exif_data "camera_model"]>
  (<["width" := dict_get exif_data "width"]>
  (<["height" := dict_get exif_data "height"]>
  (<["format" := dict_get exif_data "format"]>
  (<["processing_status" := PStr "processing"]>
  (<["brightness_score" := dict_get quality_metrics "brightness"]>
  (<["sharpness_score" := dict_get quality_metrics "sharpness"]>
  (<["quality_score" := dict_get quality_metrics "overall"]> ∅)))))))))))))))))))))).

(** Lines 133 to 181: the part of the [try] body that ends with the
    assignment of [image_id]. *)
Definition acquire (s3_bucket s3_key : string) : M (Z * bytes) :=
  _ <- update_dynamodb_status s3_key "PROCESSING" ∅ ;;
  image_bytes <- (fun w => (get_object E s3_bucket s3_key, w)) ;;
  image_id <- db_call (insert_image (image_record s3_bucket s3_key image_bytes)) ;;
  ret (image_id, image_bytes).

(** The [detection_record] dictionary of lines 196 to 205. *)
Definition base_record (image_id : Z) (d : detection) : gmap string pyval :=
  let '(x, y, width, height) := det_bbox d in
  <["image_id" := PInt image_id]>
  (<["detection_type" := PStr (MegaDetector.category_name (det_category d))]>
  (<["bbox_x" := PFloat x]>
  (<["bbox_y" := PFloat y]>
  (<["bbox_width" := PFloat width]>
  (<["bbox_height" := PFloat height]>
  (<["megadetector_confidence" := PFloat (det_confidence d)]>
  (<["needs_review" := PBool (PrimFloat.ltb (det_confidence d) 0.8)]> ∅))))))).

(** The [detection_record.update(...)] of lines 226 to 231. *)
Definition with_species (species_id : Z) (md_confidence : float)
    (species_predictions : list SpeciesNet.prediction)
    (top_prediction : SpeciesNet.prediction)
    (detection_record : gmap string pyval) : gmap string pyval :=
  <["species_id" := PInt species_id]>
  (<["speciesnet_confidence" := PFloat (SpeciesNet.confidence top_prediction)]>
  (<["overall_confidence" :=
       PFloat ((md_confidence + SpeciesNet.confidence top_prediction) / 2)%float]>
  (<["species_top5" := PJson species_predictions]> detection_record))).

Definition classify (image_bytes : bytes) (top_k : nat)
  : exn + list SpeciesNet.prediction :=
  SpeciesNet.classify (model_top_k E) (speciesnet_threshold E) image_bytes top_k.

(** Lines 192 to 234: the record of one detection as it is handed to
    [insert_detection]. *)
Definition build_detection_record (image_id : Z) (image_bytes : bytes)
    (d : detection) : M (gmap string pyval) :=
  let detection_record := base_record image_id d in
  match det_category d with
  | MegaDetector.Animal =>
      cropped_image <- logged "Error cropping detection: "
                         (crop_detection E image_bytes (det_bbox d)) ;;
      species_predictions <- logged "Error running SpeciesNet: "
                               (classify cropped_image 5) ;;
      match species_predictions with
      | top_prediction :: _ =>
          species_id <- db_call (fun db =>
            inr (get_or_create_species
                   (SpeciesNet.scientific_name top_prediction)
                   (Some (SpeciesNet.common_name top_prediction)) db)) ;;
          ret (with_species species_id (det_confidence d)
                 species_predictions top_prediction detection_record)
      | [] => ret detection_record
      end
  | _ => ret detection_record
  end.

(** The entry appended to [detection_results] (lines 238 to 243). *)
Definition result_entry (detection_id : Z) (d : detection)
    (detection_record : gmap string pyval) : gmap string pyval :=
  detection_record ∪
  (<["detection_id" := PInt detection_id]>
  (<["type" := PStr (MegaDetector.category_name (det_category d))]>
  (<["confidence" := PFloat (det_confidence d)]> ∅))).

(** The loop of lines 191 to 243. *)
Fixpoint process_detections (image_id : Z) (image_bytes : bytes)
    (detections : list detection) (detection_results : list (gmap string pyval))
  : M (list (gmap string pyval)) :=
  match detections with
  | [] => ret detection_results
  | d :: rest =>
      detection_record <- build_detection_record image_id image_bytes d ;;
      detection_id <- db_call (insert_detection detection_record) ;;
      process_detections image_id image_bytes rest
        (detection_results ++ [result_entry detection_id d detection_record])
  end.

(** What [process_image] returns: the status code and the fields of the
    JSON body. *)
Record response : Type := Response {
  statusCode : Z;
  message : string;
  body_image_id : option Z;
  body_detections : option Z;
  body_results : list (gmap string pyval);
  body_error : option string
}.

Definition is_animal_entry (entry : gmap string pyval) : bool :=
  text_eq (entry !! "detection_type") (PStr "animal").

(** Lines 183 to 265: the rest of the [try] body, where [image_id] is
    bound. *)
Definition detect_and_store (s3_key : string) (image_id : Z) (image_bytes : bytes)
  : M response :=
  detections <- logged "Error running MegaDetector: " (detect E image_bytes) ;;
  detection_results <- process_detections image_id image_bytes detections [] ;;
  _ <- db_call (fun db => inr (tt, update_image_status image_id "completed" None db)) ;;
  _ <- update_dynamodb_status s3_key "DETECTION_COMPLETE"
         (<["image_id" := PInt image_id]>
         (<["detection_count" := PInt (Z.of_nat (length detections))]>
         (<["has_animals" := PBool (existsb is_animal_entry detection_results)]> ∅))) ;;
  ret (Response 200 "Image processed successfully" (Some image_id)
         (Some (Z.of_nat (length detections))) detection_results None).

(** The [except] block (lines 267 to 284); [image_id] is [Some] when the
    local variable is bound, which is what ['image_id' in locals()] asks. *)
Definition on_failure (s3_key : string) (image_id : option Z) (e : exn)
  : M response :=
  _ <- log_error ("Error processing image " ++ s3_key ++ ": " ++ exn_str e) ;;
  _ <- match image_id with
       | Some id =>
           db_call (fun db =>
             inr (tt, update_image_status id "failed" (Some (exn_str e)) db))
       | None => ret tt
       end ;;
  _ <- update_dynamodb_status s3_key "DETECTION_FAILED"
         (<["error_message" := PStr (exn_str e)]> ∅) ;;
  ret (Response 500 "Failed to process image" None None [] (Some (exn_str e))).

(** The [try] statement from the point where [image_id] is bound: an
    exception raised from here on finds ['image_id' in locals()] true. *)
Definition process_image_from (s3_key : string) (image_id : Z) (image_bytes : bytes)
  : M response :=
  try_except (detect_and_store s3_key image_id image_bytes)
    (on_failure s3_key (Some image_id)).

(** [process_image] on the event of one uploaded object; an exception
    raised before [image_id] is bound finds it absent from [locals()]. *)
Definition process_image (s3_bucket s3_key : string) : M response :=
  fun w =>
    match acquire s3_bucket s3_key w with
    | (inl e, w1) => on_failure s3_key None e w1
    | (inr (image_id, image_bytes), w1) =>
        process_image_from s3_key image_id image_bytes w1
    end.

(** [lambda_handler], the models and the database being initialised. *)
Definition lambda_handler (s3_bucket s3_key : string) : M response :=
  try_except (process_image s3_bucket s3_key)
    (fun e => ret (Response 500 "Lambda execution failed" None None []
                     (Some (exn_str e)))).

End Pipeline.

(** The environment with another behaviour of the key-value store. *)
Definition with_put_item_fault (fault : gmap string pyval → option exn) (E : env)
  : env :=
  Env (get_object E) (sha256_hexdigest E) (extract_exif_data E) (json_dumps E)
      (calculate_image_quality E) (detect E) (crop_detection E) (model_top_k E)
      (speciesnet_threshold E) fault.

(** The four species fields of a detection record or row. *)
Definition species_fields : list string :=
  ["species_id"; "speciesnet_confidence"; "overall_confidence"; "species_top5"].

(** A field is present when it is bound to a value that is not [None]
    (SQL NULL). *)
Definition present (cols : gmap string pyval) (p : string) : Prop :=
  ∃ v, cols !! p = Some v ∧ v ≠ PNone.

Definition has_species_fields (cols : gmap string pyval) : Prop :=
  ∀ p, In p species_fields → present cols p.

Definition no_species_fields (cols : gmap string pyval) : Prop :=
  ∀ p, In p species_fields → cols !! p = None.

(** The image rows after a failed run, against the rows before it: the
    rows with the given id have status [failed] and the message, every other
    row is as it was. *)
Definition marked_failed (image_id : Z) (msg : string) (before after : list row)
  : Prop :=
  length after = length before
  ∧ ∀ (i : nat) (r : row), before !! i = Some r →
      ∃ r', after !! i = Some r'
            ∧ row_id r' = row_id r
            ∧ (row_id r = image_id →
               row_cols r' !! "processing_status" = Some (PStr "failed")
               ∧ row_cols r' !! "error_message" = Some (PStr msg))
            ∧ (row_id r ≠ image_id → r' = r).

(** Two worlds with the same durable store and clock. *)
Definition same_durable (w w' : world) : Prop :=
  w_db w = w_db w' ∧ w_clock w = w_clock w'.

(** Two computations that, from such worlds, return the same outcome and
    end in such worlds. *)
Definition agree {A : Type} (m m' : M A) : Prop :=
  ∀ w w', same_durable w w' →
    fst (m w) = fst (m' w') ∧ same_durable (snd (m w)) (snd (m' w')).

End Handler.

(** ** Concrete inputs, for the examples *)

Module Samples.
Import Database Handler.

Definition ursus : SpeciesNet.prediction :=
  SpeciesNet.Prediction 0 0.7 "Ursus arctos" "Brown Bear" None.

Definition canis : SpeciesNet.prediction :=
  SpeciesNet.Prediction 1 0.2 "Canis lupus" "Gray Wolf" None.

Definition sample_key : string := "proj/Brazil/acme/cam07/2024-01-01/IMG_0001.JPG".

(** An animal box at confidence 0.9 in the left half of the image, and one
    in the right half. *)
Definition animal_left : detection :=
  Detection MegaDetector.Animal 0.9 (0.1, 0.2, 0.3, 0.4)%float.

Definition animal_right : detection :=
  Detection MegaDetector.Animal 0.9 (0.6, 0.2, 0.3, 0.4)%float.

Definition person_left : detection :=
  Detection MegaDetector.Person 0.95 (0.1, 0.2, 0.3, 0.4)%float.

(** The crop of a box is tagged by the half of the image it starts in. *)
Definition sample_crop (image_bytes : bytes)
    (bbox : float * float * float * float) : exn + bytes :=
  let '(x, _, _, _) := bbox in
  if PrimFloat.ltb x 0.5 then inr [Byte.x01] else inr [Byte.x02].

(** An environment around a detector result and the network's answer for
    a crop; the classifier threshold is the default 0.5 and the key-value
    store accepts every item. *)
Definition sample_env (detections : exn + list detection)
    (network : bytes → exn + list SpeciesNet.prediction) : env :=
  Env (fun _ _ => inr [])
      (fun _ => "e3b0c44298fc1c149afbf4c8996fb92427ae41e4649b934ca495991b7852b855")
      (fun _ => ∅)
      (fun _ => "{}")
      (fun _ => ∅)
      (fun _ => detections)
      sample_crop
      (fun image_bytes _ => network image_bytes)
      0.5%float
      (fun _ => None).

(** A network that knows the left crop and fails on any other. *)
Definition left_only (predictions : list SpeciesNet.prediction) (image_bytes : bytes)
  : exn + list SpeciesNet.prediction :=
  match image_bytes with
  | [Byte.x01] => inr predictions
  | _ => inl (Exn "RuntimeError" "")
  end.

(** A database that holds the image record with id 1 and nothing else. *)
Definition sample_db : database :=
  Db [Row 1 (<["s3_key" := PStr sample_key]>
            (<["processing_status" := PStr "processing"]> ∅))]
     [] [] 2 1 1 100.

Definition sample_world : world := World sample_db ∅ 5 [].

(** Two animal boxes, a network that labels the first crop and raises
    [RuntimeError()] on the second, and a key-value store that refuses
    every write. *)
Definition second_crop_fails : env :=
  with_put_item_fault (fun _ => Some (Exn "ClientError" "throttled"))
    (sample_env (inr [animal_left; animal_right]) (left_only [ursus])).

(** A detector that raises. *)
Definition detector_fails : env :=
  sample_env (inl (Exn "RuntimeError" "out of memory")) (left_only [ursus]).

(** A complete image record, and one for the same key with other content. *)
Definition complete_record (file_hash : string) : gmap string pyval :=
  <["location_id" := PNone]>
  (<["file_hash" := PStr file_hash]>
  (Handler.image_record (sample_env (inr []) (left_only []))
     "bucket" sample_key [])).

(** A GPS block of the southern, western hemisphere below sea level:
    10 degrees 30 minutes south, 20 degrees 15 minutes west, 12.5 below
    sea level. *)
Definition south_west_below : gmap Z Utils.exif_value :=
  <[1 := Utils.XStr "S"]>
  (<[2 := Utils.XTuple [Utils.XNum 10; Utils.XNum 30; Utils.XNum 0]]>
  (<[3 := Utils.XStr "W"]>
  (<[4 := Utils.XTuple [Utils.XNum 20; Utils.XNum 15; Utils.XNum 0]]>
  (<[5 := Utils.XNum 1]> (<[6 := Utils.XNum 12.5]> ∅))))).

End Samples.

(* ===================================================================== *)
(** * Part II. Theorems                                                   *)
(* ===================================================================== *)

(** ** Python strings *)

Lemma split_nonempty (sep : ascii) (s : string) :
(0 < length (PyStr.split sep s))%nat.
Proof.
induction s as [|c rest IH]; simpl; [lia|].
destruct (Ascii.eqb c sep); simpl; [lia|].
destruct (PyStr.split sep rest); simpl; lia.
Qed.

(** Joining the pieces with the separator gives the string back. *)
Lemma join_split (sep : ascii) (s : string) :
PyStr.join sep (PyStr.split sep s) = s.
Proof.
induction s as [|c rest IH]; [reflexivity|].
simpl. destruct (Ascii.eqb c sep) eqn:E.
- apply Ascii.eqb_eq in E. subst c.
  pose proof (split_nonempty sep rest) as Hlen.
  destruct (PyStr.split sep rest) as [|p ps]; [simpl in Hlen; lia|].
  change (PyStr.join sep (EmptyString :: p :: ps))
    with (String sep (PyStr.join sep (p :: ps))).
  by rewrite IH.
- pose proof (split_nonempty sep rest) as Hlen.
  destruct (PyStr.split sep rest) as [|p ps]; [simpl in Hlen; lia|].
  destruct ps as [|q qs]; simpl in *; by rewrite <- IH.
Qed.

(** No piece contains the separator. *)
Lemma split_pieces_clean (sep : ascii) (s : string) :
Forall (fun p => PyStr.contains sep p = false) (PyStr.split sep s).
Proof.
induction s as [|c rest IH]; simpl.
- by constructor.
- destruct (Ascii.eqb c sep) eqn:E.
  + by constructor.
  + destruct (PyStr.split sep rest) as [|p ps].
    * constructor; [simpl; by rewrite E|constructor].
    * inversion IH; subst. constructor; [simpl; by rewrite E|done].
Qed.

(** ** The path parser *)

Section PathParserFacts.
Import PathParser.

Lemma segment_lookup (parts : list string) (i : nat) :
  segment parts i = parts !! i.
Proof.
  unfold segment. case_decide; [done|].
  symmetry. apply lookup_ge_None. lia.
Qed.

Lemma last_segment_last (parts : list string) :
  last_segment parts = list.last parts.
Proof.
  unfold last_segment. case_decide; [done|].
  destruct parts; [done|simpl in *; lia].
Qed.

(** C9, counterexample: on the one-segment key the file name is not
    absent, it is the segment itself. *)
Lemma parse_s3_path_onlyfile_file_name :
  file_name (parse_s3_path "onlyfile.jpg") = Some "onlyfile.jpg".
Proof. reflexivity. Qed.

(** C9 (amended): the path parser is total; project, country, client,
    camera and date are the segments 0 to 4 of the key split on '/', a
    position past the last segment giving [None]; the file name is the
    last segment, so it and the project are always present.  The
    six-segment key yields all six fields; the key "onlyfile.jpg" yields
    project and file name "onlyfile.jpg" and the other four absent. *)
Theorem parse_s3_path_positional (s3_key : string) :
  let parts := PyStr.split "/" s3_key in
  let m := parse_s3_path s3_key in
  PyStr.join "/" parts = s3_key
  ∧ project_name m = parts !! 0%nat
  ∧ country m = parts !! 1%nat
  ∧ client m = parts !! 2%nat
  ∧ camera_id m = parts !! 3%nat
  ∧ date m = parts !! 4%nat
  ∧ file_name m = list.last parts
  ∧ (∀ i : nat, (length parts ≤ i)%nat → parts !! i = None)
  ∧ is_Some (project_name m)
  ∧ is_Some (file_name m)
  ∧ parse_s3_path "proj/Brazil/acme/cam07/2024-01-01/IMG_0001.JPG"
    = {| project_name := Some "proj"; country := Some "Brazil";
         client := Some "acme"; camera_id := Some "cam07";
         date := Some "2024-01-01"; file_name := Some "IMG_0001.JPG" |}
  ∧ parse_s3_path "onlyfile.jpg"
    = {| project_name := Some "onlyfile.jpg"; country := None;
         client := None; camera_id := None; date := None;
         file_name := Some "onlyfile.jpg" |}.
Proof.
  intros parts m. subst m. unfold parse_s3_path. fold parts. simpl.
  rewrite !segment_lookup, last_segment_last.
  pose proof (split_nonempty "/" s3_key) as Hlen. fold parts in Hlen.
  repeat split; try reflexivity.
  - apply join_split.
  - intros i Hi. by apply lookup_ge_None.
  - destruct parts; [simpl in Hlen; lia|]. by eexists.
  - destruct parts as [|p ps] using rev_ind; [simpl in Hlen; lia|].
    rewrite last_snoc. by eexists.
Qed.

End PathParserFacts.

(** ** GPS decoding *)

Section GpsFacts.
Import Utils.

Variable str_to_float : string → option float.

Local Abbreviation convert_to_degrees := (convert_to_degrees str_to_float).
Local Abbreviation py_float := (py_float str_to_float).
Local Abbreviation extract_gps_data := (extract_gps_data str_to_float).

Lemma is_str_true (v : exif_value) (s : string) :
  is_str v s = true ↔ v = XStr s.
Proof.
  destruct v as [t|f|l]; simpl; [|split; [discriminate|intros [=]]..].
  rewrite String.eqb_eq. split; [by intros ->|by intros [= ->]].
Qed.

Lemma latitude_block_inv (gps_info : gmap Z exif_value) (d d' : gmap string float) :
  gps_latitude_block str_to_float gps_info d = Some d' →
  (∃ ref value deg,
      gps_info !! 1 = Some ref ∧ gps_info !! 2 = Some value
      ∧ convert_to_degrees value = Some deg
      ∧ d' = <["gps_latitude" := negate_if (is_str ref "S") deg]> d)
  ∨ ((gps_info !! 1 = None ∨ gps_info !! 2 = None) ∧ d' = d).
Proof.
  unfold gps_latitude_block.
  destruct (gps_info !! 1) as [ref|] eqn:E1; [|intros [= <-]; right; auto].
  destruct (gps_info !! 2) as [value|] eqn:E2; [|intros [= <-]; right; auto].
  destruct (convert_to_degrees value) as [deg|] eqn:E3; [|discriminate].
  intros [= <-]. left. by exists ref, value, deg.
Qed.

Lemma longitude_block_inv (gps_info : gmap Z exif_value) (d d' : gmap string float) :
  gps_longitude_block str_to_float gps_info d = Some d' →
  (∃ ref value deg,
      gps_info !! 3 = Some ref ∧ gps_info !! 4 = Some value
      ∧ convert_to_degrees value = Some deg
      ∧ d' = <["gps_longitude" := negate_if (is_str ref "W") deg]> d)
  ∨ ((gps_info !! 3 = None ∨ gps_info !! 4 = None) ∧ d' = d).
Proof.
  unfold gps_longitude_block.
  destruct (gps_info !! 3) as [ref|] eqn:E1; [|intros [= <-]; right; auto].
  destruct (gps_info !! 4) as [value|] eqn:E2; [|intros [= <-]; right; auto].
  destruct (convert_to_degrees value) as [deg|] eqn:E3; [|discriminate].
  intros [= <-]. left. by exists ref, value, deg.
Qed.

Lemma altitude_block_inv (gps_info : gmap Z exif_value) (d d' : gmap string float) :
  gps_altitude_block str_to_float gps_info d = Some d' →
  (∃ value a,
      gps_info !! 6 = Some value ∧ py_float value = Some a
      ∧ d' = <["gps_altitude" := negate_if (below_sea_level gps_info) a]> d)
  ∨ (gps_info !! 6 = None ∧ d' = d).
Proof.
  unfold gps_altitude_block.
  destruct (gps_info !! 6) as [value|] eqn:E1; [|intros [= <-]; right; auto].
  destruct (py_float value) as [a|] eqn:E2; [|discriminate].
  intros [= <-]. left. by exists value, a.
Qed.

(** The three blocks, run in sequence, give the dictionary of a successful
    call. *)
Lemma extract_gps_data_inv (gps_info : gmap Z exif_value) (out : gmap string float) :
  extract_gps_data gps_info = Some out →
  ∃ d1 d2,
    gps_latitude_block str_to_float gps_info ∅ = Some d1
    ∧ gps_longitude_block str_to_float gps_info d1 = Some d2
    ∧ gps_altitude_block str_to_float gps_info d2 = Some out
    ∧ out ≠ ∅.
Proof.
  unfold Utils.extract_gps_data.
  destruct (gps_latitude_block _ _ _) as [d1|] eqn:E1; [|discriminate].
  destruct (gps_longitude_block _ _ _) as [d2|] eqn:E2; [|discriminate].
  destruct (gps_altitude_block _ _ _) as [d3|] eqn:E3; [|discriminate].
  case_decide as Hsz; [discriminate|]. intros [= <-].
  exists d1, d2. split; [done|]. split; [done|]. split; [done|].
  intros Hempty. apply Hsz. rewrite Hempty. apply map_size_empty.
Qed.

Lemma below_sea_level_true (gps_info : gmap Z exif_value) :
  below_sea_level gps_info = true
  ↔ ∃ f, gps_info !! 5 = Some (XNum f) ∧ PrimFloat.eqb f 1 = true.
Proof.
  unfold below_sea_level. destruct (gps_info !! 5) as [[t|f|l]|]; simpl.
  - split; [discriminate|]. by intros (f & [=] & _).
  - split; [by exists f|]. by intros (g & [= ->] & H).
  - split; [discriminate|]. by intros (f & [=] & _).
  - split; [discriminate|]. by intros (f & [=] & _).
Qed.

(** C6: a coordinate given as three numbers is
    [degrees + minutes / 60 + seconds / 3600] (in binary64 arithmetic, as
    the code computes it); in the dictionary of a successful call the
    latitude is present exactly when tags 1 and 2 are, and it is that value
    negated exactly when tag 1 is the string "S"; likewise the longitude
    with tags 3 and 4 and "W"; the altitude is present exactly when tag 6
    is, negated exactly when tag 5 equals 1; and a block with none of these
    fields gives [None], which is a value and not an exception. *)
Theorem extract_gps_data_correct (gps_info : gmap Z exif_value) :
  (∀ d m s : float,
      convert_to_degrees (XTuple [XNum d; XNum m; XNum s])
      = Some (d + m / 60 + s / 3600)%float)
  ∧ (∀ b x, negate_if b x = if b then (- x)%float else x)
  ∧ (∀ ref, is_str ref "S" = true ↔ ref = XStr "S")
  ∧ (∀ ref, is_str ref "W" = true ↔ ref = XStr "W")
  ∧ (below_sea_level gps_info = true
     ↔ ∃ f, gps_info !! 5 = Some (XNum f) ∧ PrimFloat.eqb f 1 = true)
  ∧ (∀ out, extract_gps_data gps_info = Some out →
       (∀ lat, out !! "gps_latitude" = Some lat
          ↔ ∃ ref value deg,
              gps_info !! 1 = Some ref ∧ gps_info !! 2 = Some value
              ∧ convert_to_degrees value = Some deg
              ∧ lat = negate_if (is_str ref "S") deg)
       ∧ (∀ lon, out !! "gps_longitude" = Some lon
          ↔ ∃ ref value deg,
              gps_info !! 3 = Some ref ∧ gps_info !! 4 = Some value
              ∧ convert_to_degrees value = Some deg
              ∧ lon = negate_if (is_str ref "W") deg)
       ∧ (∀ alt, out !! "gps_altitude" = Some alt
          ↔ ∃ value a,
              gps_info !! 6 = Some value ∧ py_float value = Some a
              ∧ alt = negate_if (below_sea_level gps_info) a))
  ∧ ((gps_info !! 1 = None ∨ gps_info !! 2 = None) →
     (gps_info !! 3 = None ∨ gps_info !! 4 = None) →
     gps_info !! 6 = None →
     extract_gps_data gps_info = None).
Proof.
  split; [reflexivity|]. split; [reflexivity|].
  split; [intros; apply is_str_true|]. split; [intros; apply is_str_true|].
  split; [apply below_sea_level_true|]. split.
  - intros out Hout.
    destruct (extract_gps_data_inv _ _ Hout) as (d1 & d2 & H1 & H2 & H3 & _).
    apply latitude_block_inv in H1. apply longitude_block_inv in H2.
    apply altitude_block_inv in H3.
    destruct H1 as [(r1 & v1 & g1 & A1 & A2 & A3 & ->)|[A1 ->]];
    destruct H2 as [(r2 & v2 & g2 & B1 & B2 & B3 & ->)|[B1 ->]];
    destruct H3 as [(v3 & a3 & C1 & C2 & ->)|[C1 ->]];
    (split; [|split]); intros c; simplify_map_eq; (split;
      [ intros Hc; simplify_eq; eauto 10
      | first [ intros (? & ? & ? & ? & ? & ? & ?)
              | intros (? & ? & ? & ? & ?) ];
        simplify_eq; try done; try (destruct A1; simplify_eq);
        try (destruct B1; simplify_eq) ]).
  - intros Hlat Hlon Halt. unfold Utils.extract_gps_data.
    assert (gps_latitude_block str_to_float gps_info ∅ = Some ∅) as ->.
    { unfold gps_latitude_block. destruct Hlat as [-> | ->]; [done|].
      by destruct (gps_info !! 1). }
    assert (gps_longitude_block str_to_float gps_info ∅ = Some ∅) as ->.
    { unfold gps_longitude_block. destruct Hlon as [-> | ->]; [done|].
      by destruct (gps_info !! 3). }
    unfold gps_altitude_block. rewrite Halt. reflexivity.
Qed.

End GpsFacts.

Section GpsExample.
Import Utils Samples.

(** The theorem at that block. *)
Lemma extract_gps_data_correct_witness :
  ∃ out,
    extract_gps_data (fun _ => None) south_west_below = Some out
    ∧ out !! "gps_latitude" = Some (-10.5)%float
    ∧ out !! "gps_longitude" = Some (-20.25)%float
    ∧ out !! "gps_altitude" = Some (-12.5)%float.
Proof.
  destruct (extract_gps_data (fun _ => None) south_west_below) as [out|] eqn:E.
  2: { assert (bool_decide (is_Some (extract_gps_data (fun _ => None)
                                       south_west_below)) = true)
         as Hs%bool_decide_eq_true by (vm_compute; reflexivity).
       rewrite E in Hs. by destruct Hs. }
  exists out. split; [reflexivity|].
  destruct (extract_gps_data_correct (fun _ => None) south_west_below)
    as (_ & _ & _ & _ & _ & H & _).
  destruct (H out E) as (Hlat & Hlon & Halt). clear H E.
  split; [|split].
  - apply Hlat.
    exists (XStr "S"), (XTuple [XNum 10; XNum 30; XNum 0]), 10.5%float.
    vm_compute. repeat split.
  - apply Hlon.
    exists (XStr "W"), (XTuple [XNum 20; XNum 15; XNum 0]), 20.25%float.
    vm_compute. repeat split.
  - apply Halt. exists (XNum 12.5), 12.5%float.
    vm_compute. repeat split.
Defined.

End GpsExample.

(** ** Image quality *)

Section QualityFacts.
Import Utils.











(** *** A constant image *)

















End QualityFacts.

(** ** The crop rectangle *)

Section CropFacts.
Import MegaDetector.

(** What is used of binary64 rounding: it is monotone, and an integer of
    magnitude at most 2^53 is a float. *)
Variable fl : Q → Q.
Hypothesis fl_monotone : ∀ x y : Q, (x <= y)%Q → (fl x <= fl y)%Q.
Hypothesis fl_exact : ∀ z : Z, Z.abs z ≤ 2 ^ 53 → fl (inject_Z z) == inject_Z z.

Lemma py_int_nonneg (x : Q) : (0 <= x)%Q → 0 ≤ py_int x.
Proof.
  intros Hx. unfold py_int. destruct (Qlt_le_dec x 0) as [Hlt|_].
  - exfalso. by apply (Qlt_not_le _ _ Hlt).
  - rewrite <- (Qfloor_Z 0). by apply Qfloor_resp_le.
Qed.

Lemma py_int_le (x : Q) (z : Z) : (0 <= x)%Q → (x <= inject_Z z)%Q → py_int x ≤ z.
Proof.
  intros Hx Hz. unfold py_int. destruct (Qlt_le_dec x 0) as [Hlt|_].
  - exfalso. by apply (Qlt_not_le _ _ Hlt).
  - rewrite <- (Qfloor_Z z). by apply Qfloor_resp_le.
Qed.

Lemma fl_nonneg (x : Q) : (0 <= x)%Q → (0 <= fl x)%Q.
Proof.
  intros Hx. rewrite <- (fl_exact 0) by (simpl; lia). by apply fl_monotone.
Qed.

Lemma fl_comp (x y : Q) : x == y → fl x == fl y.
Proof.
  intros Hxy. apply Qle_antisym; apply fl_monotone; rewrite Hxy; apply Qle_refl.
Qed.

(** A fraction of a dimension, rounded, stays within the dimension. *)
Lemma fmul_fraction (b : Q) (n : Z) :
  (0 <= b <= 1)%Q → 0 < n ≤ 2 ^ 53 →
  (0 <= fmul fl b (of_int fl n) <= inject_Z n)%Q.
Proof.
  intros [Hb0 Hb1] Hn. unfold fmul, of_int.
  assert (0 <= inject_Z n)%Q as Hn0.
  { rewrite <- (Z.mul_1_r n). unfold Qle. simpl. lia. }
  assert (fl (b * fl (inject_Z n)) == fl (b * inject_Z n)) as ->.
  { apply fl_comp. by rewrite fl_exact by lia. }
  split.
  - apply fl_nonneg. by apply Qmult_le_0_compat.
  - rewrite <- (fl_exact n) at 2 by lia. apply fl_monotone.
    rewrite <- (Qmult_1_l (inject_Z n)) at 2.
    by apply Qmult_le_compat_r.
Qed.

Lemma pixels_range (b : Q) (n : Z) :
  (0 <= b <= 1)%Q → 0 < n ≤ 2 ^ 53 →
  0 ≤ py_int (fmul fl b (of_int fl n)) ≤ n.
Proof.
  intros Hb Hn. destruct (fmul_fraction b n Hb Hn) as [H0 H1].
  split; [by apply py_int_nonneg|by apply py_int_le].
Qed.

Lemma pad_nonneg (size : Z) :
  0 ≤ size ≤ 2 ^ 53 → 0 ≤ py_int (fmul fl (of_int fl size) padding).
Proof.
  intros Hs. apply py_int_nonneg, fl_nonneg.
  apply Qmult_le_0_compat; [|done].
  unfold of_int. rewrite fl_exact by lia.
  unfold Qle. simpl. lia.
Qed.

Lemma crop_box_bounds (img_width img_height : Z) (b0 b1 b2 b3 : Q)
    (rest : list Q) :
  0 < img_width ≤ 2 ^ 53 → 0 < img_height ≤ 2 ^ 53 →
  (0 <= b0 <= 1)%Q → (0 <= b1 <= 1)%Q → (0 <= b2 <= 1)%Q → (0 <= b3 <= 1)%Q →
  ∃ left top right bottom : Z,
    crop_box fl img_width img_height (b0 :: b1 :: b2 :: b3 :: rest)
    = Some (left, top, right, bottom)
    ∧ 0 ≤ left ∧ left ≤ right ∧ right ≤ img_width
    ∧ 0 ≤ top ∧ top ≤ bottom ∧ bottom ≤ img_height.
Proof.
  intros HW HH H0 H1 H2 H3. unfold crop_box. simpl.
  pose proof (pixels_range b0 img_width H0 HW) as Hx.
  pose proof (pixels_range b1 img_height H1 HH) as Hy.
  pose proof (pixels_range b2 img_width H2 HW) as Hw.
  pose proof (pixels_range b3 img_height H3 HH) as Hh.
  assert (0 ≤ py_int (fmul fl (of_int fl (py_int (fmul fl b2 (of_int fl img_width))))
                        padding)) as Hpx by (apply pad_nonneg; lia).
  assert (0 ≤ py_int (fmul fl (of_int fl (py_int (fmul fl b3 (of_int fl img_height))))
                        padding)) as Hpy by (apply pad_nonneg; lia).
  do 4 eexists. split; [reflexivity|]. lia.
Qed.

(** C8: for a normalised box with the four components in [0, 1] and an
    image of positive dimensions W x H (at most 2^53, so that they are
    floats), the padded crop rectangle exists, all its coordinates lie in
    [0, W] x [0, H], and left <= right and top <= bottom. *)
Theorem crop_detection_within_image (image_size : bytes → option (Z * Z))
    (image_bytes : bytes) (img_width img_height : Z) (b0 b1 b2 b3 : Q) :
  image_size image_bytes = Some (img_width, img_height) →
  0 < img_width ≤ 2 ^ 53 → 0 < img_height ≤ 2 ^ 53 →
  (0 <= b0 <= 1)%Q → (0 <= b1 <= 1)%Q → (0 <= b2 <= 1)%Q → (0 <= b3 <= 1)%Q →
  ∃ left top right bottom : Z,
    crop_detection fl image_size image_bytes [b0; b1; b2; b3]
    = Some (left, top, right, bottom)
    ∧ 0 ≤ left ∧ left ≤ right ∧ right ≤ img_width
    ∧ 0 ≤ top ∧ top ≤ bottom ∧ bottom ≤ img_height.
Proof.
  intros Hsize HW HH H0 H1 H2 H3. unfold crop_detection. rewrite Hsize.
  by apply crop_box_bounds.
Qed.

End CropFacts.

(** The theorem at exact arithmetic, for a box that touches the right and
    bottom edges of a 640 x 480 image: the rectangle is
    (464, 216, 640, 480). *)
Lemma crop_detection_within_image_witness :
  MegaDetector.crop_detection (fun x => x) (fun _ => Some (640, 480)) []
    [3 # 4; 1 # 2; 1 # 4; 1 # 2]%Q
  = Some (464, 216, 640, 480)
  ∧ ∃ left top right bottom : Z,
      MegaDetector.crop_detection (fun x => x) (fun _ => Some (640, 480)) []
        [3 # 4; 1 # 2; 1 # 4; 1 # 2]%Q
      = Some (left, top, right, bottom)
      ∧ 0 ≤ left ∧ left ≤ right ∧ right ≤ 640
      ∧ 0 ≤ top ∧ top ≤ bottom ∧ bottom ≤ 480.
Proof.
  split; [reflexivity|].
  apply (crop_detection_within_image (fun x => x)).
  - intros x y H. exact H.
  - intros z _. reflexivity.
  - reflexivity.
  - lia.
  - lia.
  - split; discriminate.
  - split; discriminate.
  - split; discriminate.
  - split; discriminate.
Defined.

(** ** The database manager *)

Section DatabaseFacts.
Import Database.

Lemma bind_params_bound (params : list string) (data : gmap string pyval) :
  (∀ p, In p params → is_Some (data !! p)) →
  ∃ cols, bind_params params data = inr cols
          ∧ (∀ p, In p params → cols !! p = data !! p)
          ∧ (∀ p, ¬ In p params → cols !! p = None).
Proof.
  induction params as [|p ps IH]; intros Hall; simpl.
  - exists ∅. split; [done|]. split; [intros p []|intros; apply lookup_empty].
  - destruct (Hall p) as [v Hv]; [by left|]. rewrite Hv.
    destruct IH as (cols & -> & Hin & Hout); [intros q Hq; apply Hall; by right|].
    exists (<[p := v]> cols). split; [done|]. split.
    + intros q Hq. destruct (decide (p = q)) as [->|Hne].
      * by rewrite lookup_insert_eq.
      * rewrite lookup_insert_ne by done. destruct Hq; [done|]. by apply Hin.
    + intros q Hq. rewrite lookup_insert_ne; [|intros ->; apply Hq; by left].
      apply Hout. intros Hq'. apply Hq. by right.
Qed.

(** A missing placeholder raises [KeyError] and nothing else happens. *)
Lemma bind_params_missing (params : list string) (data : gmap string pyval) (p : string) :
  In p params → data !! p = None →
  ∃ q, bind_params params data = inl (KeyError q) ∧ In q params ∧ data !! q = None.
Proof.
  induction params as [|p' ps IH]; intros Hin Hp; [destruct Hin|]. simpl.
  destruct (data !! p') as [v|] eqn:E.
  - destruct Hin as [->|Hin]; [congruence|].
    destruct (IH Hin Hp) as (q & -> & Hq & Hnone). exists q. auto.
  - exists p'. auto.
Qed.

Lemma has_key_touch (key : pyval) (now : Z) (r : row) :
  has_key key (touch now r) = has_key key r.
Proof. unfold has_key, touch. simpl. by rewrite lookup_insert_ne. Qed.

Lemma find_touch_matching (key : pyval) (now : Z) (rows : list row) :
  List.find (has_key key) (touch_matching key now rows)
  = touch now <$> List.find (has_key key) rows.
Proof.
  induction rows as [|r rows IH]; [done|]. simpl.
  destruct (has_key key r) eqn:E.
  - by rewrite has_key_touch, E.
  - by rewrite E.
Qed.

Lemma filter_touch_matching (key key' : pyval) (now : Z) (rows : list row) :
  length (List.filter (has_key key') (touch_matching key now rows))
  = length (List.filter (has_key key') rows).
Proof.
  induction rows as [|r rows IH]; [done|]. simpl.
  destruct (has_key key r); rewrite ?has_key_touch;
    destruct (has_key key' r); simpl; by rewrite IH.
Qed.

(** Touching changes the [updated_at] column and nothing else. *)
Lemma touch_matching_lookup (key : pyval) (now : Z) (rows : list row) (i : nat) (r : row) :
  rows !! i = Some r →
  ∃ r', touch_matching key now rows !! i = Some r'
        ∧ row_id r' = row_id r
        ∧ ∀ c, c ≠ "updated_at" → row_cols r' !! c = row_cols r !! c.
Proof.
  revert i. induction rows as [|r0 rows IH]; intros [|i] Hi; simpl in *; try done.
  - injection Hi as ->. destruct (has_key key r).
    + exists (touch now r). split; [done|]. split; [done|].
      intros c Hc. simpl. by rewrite lookup_insert_ne.
    + by exists r.
  - by apply IH.
Qed.

Lemma find_none_filter (key : pyval) (rows : list row) :
  List.find (has_key key) rows = None →
  List.filter (has_key key) rows = [].
Proof.
  induction rows as [|r rows IH]; [done|]. simpl.
  destruct (has_key key r); [discriminate|done].
Qed.

Lemma find_some_filter (key : pyval) (rows : list row) (r : row) :
  List.find (has_key key) rows = Some r →
  (0 < length (List.filter (has_key key) rows))%nat.
Proof.
  induction rows as [|r0 rows IH]; [done|]. simpl.
  destruct (has_key key r0); simpl; [lia|done].
Qed.

Lemma insert_image_unfold (image_data : gmap string pyval) (db : database) (k : string) :
  all_bound insert_image_params image_data →
  image_data !! "s3_key" = Some (PStr k) →
  ∃ cols,
    cols !! "s3_key" = Some (PStr k)
    ∧ insert_image image_data db
      = match List.find (has_key (PStr k)) (images db) with
        | Some r =>
            inr (row_id r,
                 Db (touch_matching (PStr k) (db_clock db) (images db))
                    (detections db) (species db)
                    (next_image_id db) (next_detection_id db) (next_species_id db)
                    (db_clock db + 1))
        | None =>
            inr (next_image_id db,
                 Db (images db ++ [Row (next_image_id db) cols])
                    (detections db) (species db)
                    (next_image_id db + 1) (next_detection_id db) (next_species_id db)
                    (db_clock db + 1))
        end.
Proof.
  intros Hall Hkey. unfold insert_image.
  destruct (bind_params_bound _ _ Hall) as (cols & -> & Hin & _).
  assert (cols !! "s3_key" = Some (PStr k)) as Hk.
  { rewrite Hin; [done|]. unfold insert_image_params. simpl. auto. }
  exists cols. split; [done|]. by rewrite Hk.
Qed.

Lemma find_app_new (k : string) (rows : list row) (r : row) :
  List.find (has_key (PStr k)) rows = None →
  row_cols r !! "s3_key" = Some (PStr k) →
  List.find (has_key (PStr k)) (rows ++ [r]) = Some r.
Proof.
  intros Hnone Hr. induction rows as [|r0 rows IH]; simpl in *.
  - unfold has_key at 1. rewrite Hr. simpl. by rewrite String.eqb_refl.
  - destruct (has_key (PStr k) r0); [discriminate|]. by apply IH.
Qed.

(** C1: upserting twice under one storage key, whatever else the two
    records hold (each binds every placeholder of the query, so that the
    statement executes), returns the same image id both times; the second call
    adds no row, leaves every row's id and every column but [updated_at] as
    the first call left them, and does not touch the other tables; when
    the key was unique before (as the unique index demands), exactly one row
    carries it afterwards. *)
Theorem insert_image_idempotent (db : database) (d1 d2 : gmap string pyval)
    (k : string) :
  all_bound insert_image_params d1 →
  all_bound insert_image_params d2 →
  d1 !! "s3_key" = Some (PStr k) →
  d2 !! "s3_key" = Some (PStr k) →
  ∃ (id : Z) (db1 db2 : database),
    insert_image d1 db = inr (id, db1)
    ∧ insert_image d2 db1 = inr (id, db2)
    ∧ length (images db2) = length (images db1)
    ∧ (∀ (i : nat) (r1 : row), images db1 !! i = Some r1 →
         ∃ r2, images db2 !! i = Some r2
               ∧ row_id r2 = row_id r1
               ∧ ∀ c, c ≠ "updated_at" → row_cols r2 !! c = row_cols r1 !! c)
    ∧ detections db2 = detections db1
    ∧ species db2 = species db1
    ∧ next_image_id db2 = next_image_id db1
    ∧ ((length (List.filter (has_key (PStr k)) (images db)) ≤ 1)%nat →
       length (List.filter (has_key (PStr k)) (images db2)) = 1%nat).
Proof.
  intros Hb1 Hb2 Hk1 Hk2.
  destruct (insert_image_unfold d1 db k Hb1 Hk1) as (cols1 & Hc1 & E1).
  assert (∃ id db1, insert_image d1 db = inr (id, db1)
            ∧ (∃ r, List.find (has_key (PStr k)) (images db1) = Some r
                    ∧ row_id r = id)
            ∧ ((length (List.filter (has_key (PStr k)) (images db)) ≤ 1)%nat →
               length (List.filter (has_key (PStr k)) (images db1)) = 1%nat))
    as (id & db1 & Hins1 & (r & Hfind & Hid) & Hcount).
  { rewrite E1. destruct (List.find _ (images db)) as [r|] eqn:Hf.
    - eexists _, _. split; [reflexivity|]. simpl. split.
      + exists (touch (db_clock db) r). by rewrite find_touch_matching, Hf.
      + intros Hle. rewrite filter_touch_matching.
        pose proof (find_some_filter _ _ _ Hf). lia.
    - eexists _, _. split; [reflexivity|]. simpl. split.
      + eexists. split; [by apply find_app_new|done].
      + intros _. rewrite List.filter_app, (find_none_filter _ _ Hf). simpl.
        unfold has_key at 1. simpl. rewrite Hc1. simpl.
        by rewrite String.eqb_refl. }
  destruct (insert_image_unfold d2 db1 k Hb2 Hk2) as (cols2 & Hc2 & E2).
  rewrite Hfind in E2. rewrite Hid in E2.
  exists id, db1. eexists. split; [exact Hins1|]. split; [exact E2|]. simpl.
  split; [unfold touch_matching; by rewrite length_map|].
  split; [intros i r1 Hi; by apply touch_matching_lookup|].
  split; [done|]. split; [done|]. split; [done|].
  intros Hle. rewrite filter_touch_matching. by apply Hcount.
Qed.

End DatabaseFacts.

(** ** The pipeline: one detection *)

Section DetectionFacts.
Import Database Handler.

Variable E : env.

Lemma base_record_lookups (image_id : Z) (c : MegaDetector.category)
    (m x y wd ht : float) :
  let record := base_record image_id (Detection c m (x, y, wd, ht)) in
  record !! "image_id" = Some (PInt image_id)
  ∧ record !! "detection_type" = Some (PStr (MegaDetector.category_name c))
  ∧ record !! "bbox_x" = Some (PFloat x)
  ∧ record !! "bbox_y" = Some (PFloat y)
  ∧ record !! "bbox_width" = Some (PFloat wd)
  ∧ record !! "bbox_height" = Some (PFloat ht)
  ∧ record !! "megadetector_confidence" = Some (PFloat m)
  ∧ record !! "needs_review" = Some (PBool (PrimFloat.ltb m 0.8))
  ∧ no_species_fields record.
Proof.
  repeat split.
  intros p Hp. unfold species_fields in Hp. simpl in Hp.
  destruct Hp as [<-|[<-|[<-|[<-|[]]]]]; reflexivity.
Qed.

Lemma with_species_lookups (species_id : Z) (md : float)
    (predictions : list SpeciesNet.prediction) (top : SpeciesNet.prediction)
    (record : gmap string pyval) :
  let record' := with_species species_id md predictions top record in
  record' !! "species_id" = Some (PInt species_id)
  ∧ record' !! "speciesnet_confidence" = Some (PFloat (SpeciesNet.confidence top))
  ∧ record' !! "overall_confidence"
    = Some (PFloat ((md + SpeciesNet.confidence top) / 2)%float)
  ∧ record' !! "species_top5" = Some (PJson predictions)
  ∧ (∀ p, ¬ In p species_fields → record' !! p = record !! p).
Proof.
  unfold with_species. repeat split; try by simplify_map_eq.
  intros p Hp. unfold species_fields in Hp. simpl in Hp.
  rewrite !lookup_insert_ne; [done|intros <-; apply Hp; auto..].
Qed.

(** What [build_detection_record] does, case by case. *)
Lemma build_detection_record_cases (image_id : Z) (image_bytes : bytes)
    (d : detection) (w : world) :
  build_detection_record E image_id image_bytes d w
  = match det_category d with
    | MegaDetector.Animal =>
        match crop_detection E image_bytes (det_bbox d) with
        | inl e => (inl e, add_log ("Error cropping detection: " ++ exn_str e) w)
        | inr cropped_image =>
            match classify E cropped_image 5 with
            | inl e => (inl e, add_log ("Error running SpeciesNet: " ++ exn_str e) w)
            | inr [] => (inr (base_record image_id d), w)
            | inr (top :: rest) =>
                let r := get_or_create_species (SpeciesNet.scientific_name top)
                           (Some (SpeciesNet.common_name top)) (w_db w) in
                (inr (with_species (fst r) (det_confidence d) (top :: rest) top
                        (base_record image_id d)),
                 set_db (snd r) w)
            end
        end
    | _ => (inr (base_record image_id d), w)
    end.
Proof.
  unfold build_detection_record.
  destruct (det_category d); try reflexivity.
  unfold bind, logged, ret, log_error.
  destruct (crop_detection E image_bytes (det_bbox d)) as [e|crop]; [reflexivity|].
  destruct (classify E crop 5) as [e|[|top rest]]; try reflexivity.
  unfold db_call. by destruct (get_or_create_species _ _ _).
Qed.

(** [classify] never returns an entry below the threshold. *)
Lemma classify_above_threshold (image_bytes : bytes) (top_k : nat)
    (predictions : list SpeciesNet.prediction) :
  classify E image_bytes top_k = inr predictions →
  Forall (fun p => SpeciesNet.above_threshold (speciesnet_threshold E) p = true)
         predictions.
Proof.
  unfold classify, SpeciesNet.classify.
  destruct (model_top_k E image_bytes top_k) as [e|raw]; [discriminate|].
  intros [= <-]. apply List.Forall_forall. intros p Hp.
  by apply List.filter_In in Hp as [_ Hp].
Qed.

Lemma has_species_fields_with_species (species_id : Z) (md : float)
    (predictions : list SpeciesNet.prediction) (top : SpeciesNet.prediction)
    (record : gmap string pyval) :
  has_species_fields (with_species species_id md predictions top record).
Proof.
  destruct (with_species_lookups species_id md predictions top record)
    as (H1 & H2 & H3 & H4 & _).
  intros p Hp. unfold species_fields in Hp. simpl in Hp.
  destruct Hp as [<-|[<-|[<-|[<-|[]]]]]; eexists; (split; [eassumption|discriminate]).
Qed.

Lemma no_species_fields_base_record (image_id : Z) (d : detection) :
  no_species_fields (base_record image_id d).
Proof.
  destruct d as [c m [[[x y] wd] ht]]. apply base_record_lookups.
Qed.

Lemma species_fields_exclusive (cols : gmap string pyval) :
  has_species_fields cols → no_species_fields cols → False.
Proof.
  intros Hhas Hno. destruct (Hhas "species_id") as (v & Hv & _); [by left|].
  rewrite (Hno "species_id") in Hv; [done|by left].
Qed.

(** The row [insert_detection] stores is the record, placeholder by
    placeholder. *)
Lemma insert_detection_row (record : gmap string pyval) (db : database)
    (detection_id : Z) (db' : database) :
  insert_detection record db = inr (detection_id, db') →
  ∃ cols,
    detections db' = (detections db ++ [Row detection_id cols])%list
    ∧ detection_id = next_detection_id db
    ∧ images db' = images db ∧ species db' = species db
    ∧ all_bound insert_detection_params record
    ∧ (∀ p, In p insert_detection_params → cols !! p = record !! p)
    ∧ (∀ p, ¬ In p insert_detection_params → cols !! p = None).
Proof.
  unfold insert_detection.
  destruct (bind_params insert_detection_params record) as [e|cols] eqn:Eb;
    [discriminate|].
  intros [= <- <-]. exists cols. simpl.
  assert (all_bound insert_detection_params record) as Hall.
  { intros p Hp. destruct (record !! p) eqn:Ep; [done|].
    destruct (bind_params_missing _ _ _ Hp Ep) as (q & Hq & _). congruence. }
  destruct (bind_params_bound _ _ Hall) as (cols' & Eb' & Hin & Hout).
  rewrite Eb in Eb'. injection Eb' as <-. auto 10.
Qed.

(** C4: the record the pipeline builds for a detection carries the four
    species fields exactly when the category is animal and the classifier
    returned at least one prediction at or above its threshold for the
    crop, and otherwise carries none of them; a row persisted for it holds
    the record's values, so the same is true of every persisted row. *)
Theorem detection_species_fields_iff (image_id : Z) (image_bytes : bytes)
    (d : detection) (w w1 : world) (record : gmap string pyval) :
  build_detection_record E image_id image_bytes d w = (inr record, w1) →
  let classified :=
    det_category d = MegaDetector.Animal
    ∧ ∃ cropped_image predictions,
        crop_detection E image_bytes (det_bbox d) = inr cropped_image
        ∧ classify E cropped_image 5 = inr predictions
        ∧ predictions ≠ []
        ∧ Forall (fun p => SpeciesNet.above_threshold (speciesnet_threshold E) p = true)
                 predictions in
  (has_species_fields record ↔ classified)
  ∧ (no_species_fields record ↔ ¬ classified)
  ∧ (∀ detection_id w2,
       db_call (insert_detection record) w1 = (inr detection_id, w2) →
       ∃ cols,
         detections (w_db w2) = (detections (w_db w1) ++ [Row detection_id cols])%list
         ∧ (∀ p, In p insert_detection_params → cols !! p = record !! p)
         ∧ (has_species_fields cols ↔ classified)).
Proof.
  intros Hbuild classified.
  assert (has_species_fields record ∧ classified
          ∨ no_species_fields record ∧ ¬ classified) as Hcases.
  { rewrite build_detection_record_cases in Hbuild. subst classified.
    destruct (det_category d) eqn:Ec;
      try (injection Hbuild as <- <-; right;
           split; [apply no_species_fields_base_record|by intros [? _]]).
    destruct (crop_detection E image_bytes (det_bbox d)) as [e|crop] eqn:Ecrop;
      [discriminate|].
    destruct (classify E crop 5) as [e|[|top rest]] eqn:Ecls; [discriminate| |].
    - injection Hbuild as <- <-. right.
      split; [apply no_species_fields_base_record|].
      intros (_ & crop' & ps & [= <-] & Hps & Hne & _). congruence.
    - injection Hbuild as <- <-. left.
      split; [apply has_species_fields_with_species|].
      split; [done|]. exists crop, (top :: rest).
      split; [done|]. split; [done|]. split; [done|].
      by apply (classify_above_threshold crop 5). }
  split; [|split].
  - split; [|tauto]. intros Hhas. destruct Hcases as [[_ H]|[Hno _]]; [done|].
    destruct (species_fields_exclusive _ Hhas Hno).
  - split; [|tauto]. intros Hno. destruct Hcases as [[Hhas _]|[_ H]]; [|done].
    destruct (species_fields_exclusive _ Hhas Hno).
  - intros detection_id w2 Hins. unfold db_call in Hins.
    destruct (insert_detection record (w_db w1)) as [e|[id db']] eqn:Ei;
      [discriminate|].
    injection Hins as <- <-.
    destruct (insert_detection_row _ _ _ _ Ei) as (cols & Hd & _ & _ & _ & _ & Hin & _).
    exists cols. split; [done|]. split; [done|].
    assert (has_species_fields cols ↔ has_species_fields record) as ->.
    { unfold has_species_fields, present. split; intros H p Hp.
      - rewrite <- Hin; [by apply H|].
        unfold species_fields in Hp. unfold insert_detection_params. simpl in *.
        intuition.
      - rewrite Hin; [by apply H|].
        unfold species_fields in Hp. unfold insert_detection_params. simpl in *.
        intuition. }
    split; [|tauto]. intros Hhas. destruct Hcases as [[_ H]|[Hno _]]; [done|].
    destruct (species_fields_exclusive _ Hhas Hno).
Qed.

(** C5 (amended): for an animal detection whose prediction list is empty
    after the entries below the threshold are filtered out, the record the
    pipeline builds has category animal, carries no species field, and has
    its needs-review flag set exactly when the detector confidence is below
    0.8; building it changes nothing in the world. *)
Theorem unclassified_animal_record (image_id : Z) (image_bytes : bytes)
    (d : detection) (w : world) (cropped_image : bytes)
    (raw : list SpeciesNet.prediction) :
  det_category d = MegaDetector.Animal →
  crop_detection E image_bytes (det_bbox d) = inr cropped_image →
  model_top_k E cropped_image 5 = inr raw →
  List.filter (SpeciesNet.above_threshold (speciesnet_threshold E)) raw = [] →
  ∃ record,
    build_detection_record E image_id image_bytes d w = (inr record, w)
    ∧ record !! "image_id" = Some (PInt image_id)
    ∧ record !! "detection_type" = Some (PStr "animal")
    ∧ record !! "megadetector_confidence" = Some (PFloat (det_confidence d))
    ∧ no_species_fields record
    ∧ record !! "needs_review"
      = Some (PBool (PrimFloat.ltb (det_confidence d) 0.8)).
Proof.
  intros Hcat Hcrop Hraw Hfilter. exists (base_record image_id d). split.
  - rewrite build_detection_record_cases, Hcat, Hcrop.
    unfold classify, SpeciesNet.classify. by rewrite Hraw, Hfilter.
  - destruct d as [c m [[[x y] wd] ht]]. simpl in Hcat. subst c.
    destruct (base_record_lookups image_id MegaDetector.Animal m x y wd ht)
      as (H1 & H2 & _ & _ & _ & _ & H7 & H8 & H9).
    auto.
Qed.

End DetectionFacts.

(** ** Examples on concrete inputs *)

Section SampleFacts.
Import Database Handler Samples.

(** The theorem for the upsert, at an empty database and two records of
    one key with different content hashes. *)
Lemma insert_image_idempotent_witness :
  ∃ (id : Z) (db1 db2 : database),
    insert_image (complete_record "aaaa") (Db [] [] [] 1 1 1 0) = inr (id, db1)
    ∧ insert_image (complete_record "bbbb") db1 = inr (id, db2)
    ∧ length (images db2) = 1%nat
    ∧ length (List.filter (has_key (PStr sample_key)) (images db2)) = 1%nat.
Proof.
  assert (∀ h, all_bound insert_image_params (complete_record h)) as Hall.
  { intros h p Hp. unfold insert_image_params in Hp. simpl in Hp.
    repeat (destruct Hp as [<-|Hp]; [by eexists|]). destruct Hp. }
  destruct (insert_image_idempotent (Db [] [] [] 1 1 1 0)
              (complete_record "aaaa") (complete_record "bbbb") sample_key
              (Hall "aaaa") (Hall "bbbb") eq_refl eq_refl)
    as (id & db1 & db2 & H1 & H2 & Hlen & _ & _ & _ & _ & Hcount).
  exists id, db1, db2. split; [exact H1|]. split; [exact H2|].
  split; [|apply Hcount; simpl; lia].
  rewrite Hlen.
  destruct (insert_image_unfold (complete_record "aaaa") (Db [] [] [] 1 1 1 0)
              sample_key (Hall "aaaa") eq_refl) as (cols & _ & Hnew).
  rewrite Hnew in H1. injection H1 as _ <-. reflexivity.
Defined.

(** C5, counterexample: an animal box at confidence 0.9 whose only
    prediction, at 0.2, falls below the threshold 0.5 is recorded with
    needs-review false. *)
Lemma unclassified_animal_not_flagged :
  ∃ record w1,
    build_detection_record (sample_env (inr [animal_left]) (left_only [canis]))
      1 [] animal_left sample_world = (inr record, w1)
    ∧ record !! "detection_type" = Some (PStr "animal")
    ∧ (∀ p, In p species_fields → record !! p = None)
    ∧ record !! "needs_review" = Some (PBool false).
Proof.
  exists (base_record 1 animal_left), sample_world.
  split; [reflexivity|]. split; [reflexivity|]. split; [|reflexivity].
  apply no_species_fields_base_record.
Qed.

(** The theorem on the record without species, at that detection. *)
Lemma unclassified_animal_record_witness :
  ∃ record,
    build_detection_record (sample_env (inr [animal_left]) (left_only [canis]))
      1 [] animal_left sample_world = (inr record, sample_world)
    ∧ record !! "needs_review" = Some (PBool false)
    ∧ record !! "species_id" = None.
Proof.
  destruct (unclassified_animal_record
              (sample_env (inr [animal_left]) (left_only [canis]))
              1 [] animal_left sample_world [Byte.x01] [canis]
              eq_refl eq_refl eq_refl eq_refl)
    as (record & Hb & _ & _ & _ & Hno & Hr).
  exists record. split; [exact Hb|]. split; [exact Hr|].
  apply Hno. by left.
Defined.

(** The theorem on the species fields, at an animal box whose crop the
    network labels: the record is built, persisted, and the row carries the
    four fields. *)
Lemma detection_species_fields_iff_witness :
  ∃ record w1 detection_id w2 cols,
    build_detection_record (sample_env (inr [animal_left]) (left_only [ursus; canis]))
      1 [] animal_left sample_world = (inr record, w1)
    ∧ db_call (insert_detection record) w1 = (inr detection_id, w2)
    ∧ detections (w_db w2) = [Row detection_id cols]
    ∧ has_species_fields cols.
Proof.
  set (E := sample_env (inr [animal_left]) (left_only [ursus; canis])).
  set (r := build_detection_record E 1 [] animal_left sample_world).
  set (record := with_species 1 0.9%float [ursus] ursus (base_record 1 animal_left)).
  assert (r = (inr record, snd r)) as Hr by reflexivity.
  assert (all_bound insert_detection_params record) as Hall.
  { intros p Hp. unfold insert_detection_params in Hp. simpl in Hp.
    repeat (destruct Hp as [<-|Hp]; [by eexists|]). destruct Hp. }
  destruct (bind_params_bound _ _ Hall) as (cols0 & Hbind & _).
  assert (db_call (insert_detection record) (snd r)
          = (inr 1, set_db (Db (images (w_db (snd r)))
                               (detections (w_db (snd r)) ++ [Row 1 cols0])
                               (species (w_db (snd r)))
                               (next_image_id (w_db (snd r)))
                               (next_detection_id (w_db (snd r)) + 1)
                               (next_species_id (w_db (snd r)))
                               (db_clock (w_db (snd r)) + 1)) (snd r))) as Hins.
  { unfold db_call, insert_detection. by rewrite Hbind. }
  destruct (detection_species_fields_iff E 1 [] animal_left sample_world (snd r)
              record Hr) as (_ & _ & Hrow).
  destruct (Hrow _ _ Hins) as (cols & Hd & _ & Hiff).
  exists record, (snd r), 1. eexists. exists cols.
  split; [exact Hr|]. split; [exact Hins|].
  split; [exact Hd|]. apply Hiff. split; [reflexivity|].
  exists [Byte.x01], [ursus]. repeat split; try reflexivity; try discriminate.
  repeat constructor.
Defined.


End SampleFacts.

(** ** The tracking store *)

Section TrackingFacts.
Import Database Handler.

Variable E : env.

(** What one call of [update_dynamodb_status] does to the world. *)
Lemma update_dynamodb_status_cases (s3_key status : string)
    (metadata : gmap string pyval) (w : world) :
  let item := update_data s3_key status (w_clock w) metadata in
  let ticked := World (w_db w) (w_tracking w) (w_clock w + 1) (w_log w) in
  update_dynamodb_status E s3_key status metadata w
  = match put_item_fault E item with
    | Some e => (inr tt, add_log ("Failed to update DynamoDB: " ++ exn_str e) ticked)
    | None =>
        match item !! "file_key" with
        | Some (PStr k) =>
            (inr tt, World (w_db w) (<[k := item]> (w_tracking w))
                           (w_clock w + 1) (w_log w))
        | _ =>
            (inr tt, add_log ("Failed to update DynamoDB: "
                              ++ "ValidationException: file_key") ticked)
        end
    end.
Proof.
  intros item ticked.
  unfold update_dynamodb_status, try_except, update_dynamodb_status_body,
    bind, utcnow, put_item. simpl. fold item.
  destruct (put_item_fault E item); [reflexivity|].
  destruct (item !! "file_key") as [[]|]; reflexivity.
Qed.

Lemma update_dynamodb_status_returns (s3_key status : string)
    (metadata : gmap string pyval) (w : world) :
  ∃ w', update_dynamodb_status E s3_key status metadata w = (inr tt, w')
        ∧ w_db w' = w_db w ∧ w_clock w' = w_clock w + 1.
Proof.
  rewrite update_dynamodb_status_cases.
  destruct (put_item_fault E _); [by eexists|].
  destruct (_ !! "file_key") as [[]|]; by eexists.
Qed.

End TrackingFacts.

(** ** The pipeline: the detection stage *)

Section StageFacts.
Import Database Handler.

Variable E : env.

Lemma text_eq_true (a : option pyval) (s : string) :
  text_eq a (PStr s) = true → a = Some (PStr s).
Proof.
  destruct a as [[]|]; simpl; try discriminate.
  by intros ->%String.eqb_eq.
Qed.

(** [get_or_create_species] returns the id of a species row of that name
    and leaves images and detections alone. *)
Lemma get_or_create_species_spec (name : string) (common : option string)
    (db : database) :
  let r := get_or_create_species name common db in
  (∃ row, In row (species (snd r)) ∧ row_id row = fst r
          ∧ row_cols row !! "scientific_name" = Some (PStr name))
  ∧ images (snd r) = images db
  ∧ detections (snd r) = detections db
  ∧ next_detection_id (snd r) = next_detection_id db.
Proof.
  unfold get_or_create_species.
  destruct (List.find (has_name name) (species db)) as [row|] eqn:Hf; simpl.
  - split; [|done]. exists row.
    apply List.find_some in Hf as [Hin Hname].
    split; [done|]. split; [done|]. by apply text_eq_true.
  - split; [|done]. eexists. split; [apply in_or_app; right; by left|].
    split; [done|]. reflexivity.
Qed.

Lemma process_detections_cons (image_id : Z) (image_bytes : bytes)
    (d : detection) (rest : list detection)
    (results : list (gmap string pyval)) (w : world) :
  process_detections E image_id image_bytes (d :: rest) results w
  = match build_detection_record E image_id image_bytes d w with
    | (inl e, w1) => (inl e, w1)
    | (inr record, w1) =>
        match db_call (insert_detection record) w1 with
        | (inl e, w2) => (inl e, w2)
        | (inr detection_id, w2) =>
            process_detections E image_id image_bytes rest
              (results ++ [result_entry detection_id d record]) w2
        end
    end.
Proof. reflexivity. Qed.

Lemma detect_and_store_cases (s3_key : string) (image_id : Z)
    (image_bytes : bytes) (w : world) :
  detect_and_store E s3_key image_id image_bytes w
  = match detect E image_bytes with
    | inl e => (inl e, add_log ("Error running MegaDetector: " ++ exn_str e) w)
    | inr detections =>
        match process_detections E image_id image_bytes detections [] w with
        | (inl e, w1) => (inl e, w1)
        | (inr results, w1) =>
            let w2 := set_db (update_image_status image_id "completed" None (w_db w1)) w1 in
            (inr (Response 200 "Image processed successfully" (Some image_id)
                    (Some (Z.of_nat (length detections))) results None),
             snd (update_dynamodb_status E s3_key "DETECTION_COMPLETE"
                    (<["image_id" := PInt image_id]>
                    (<["detection_count" := PInt (Z.of_nat (length detections))]>
                    (<["has_animals" := PBool (existsb is_animal_entry results)]> ∅)))
                    w2))
        end
    end.
Proof.
  unfold detect_and_store, bind, logged, ret, log_error.
  destruct (detect E image_bytes) as [e|dets]; [reflexivity|].
  destruct (process_detections E image_id image_bytes dets [] w) as [[e|results] w1];
    [reflexivity|].
  unfold db_call at 1. cbv beta iota.
  match goal with
  | |- context [update_dynamodb_status E ?k ?s ?m ?w] =>
      destruct (update_dynamodb_status_returns E k s m w) as (w3 & Hw3 & _)
  end.
  by rewrite Hw3.
Qed.

Lemma with_species_all_bound (species_id image_id : Z) (d : detection)
    (predictions : list SpeciesNet.prediction) (top : SpeciesNet.prediction) :
  all_bound insert_detection_params
    (with_species species_id (det_confidence d) predictions top
       (base_record image_id d)).
Proof.
  destruct (with_species_lookups species_id (det_confidence d) predictions top
              (base_record image_id d)) as (H1 & H2 & H3 & H4 & Hother).
  destruct d as [c m [[[x y] wd] ht]].
  destruct (base_record_lookups image_id c m x y wd ht)
    as (B1 & B2 & B3 & B4 & B5 & B6 & B7 & B8 & _).
  intros p Hp. unfold insert_detection_params in Hp. simpl in Hp.
  destruct Hp as [<-|[<-|[<-|[<-|[<-|[<-|[<-|[<-|[<-|[<-|[<-|[<-|[]]]]]]]]]]]]];
    try (by eexists);
    (rewrite Hother; [by eexists|];
     unfold species_fields; simpl; intros [|[|[|[|[]]]]]; discriminate).
Qed.

Lemma insert_detection_bound (record : gmap string pyval) (db : database) :
  all_bound insert_detection_params record →
  ∃ cols,
    insert_detection record db
    = inr (next_detection_id db,
           Db (images db) (detections db ++ [Row (next_detection_id db) cols])
              (species db) (next_image_id db) (next_detection_id db + 1)
              (next_species_id db) (db_clock db + 1))
    ∧ (∀ p, In p insert_detection_params → cols !! p = record !! p).
Proof.
  intros Hall. unfold insert_detection.
  destruct (bind_params_bound _ _ Hall) as (cols & -> & Hin & _).
  by exists cols.
Qed.

(** C3 (amended): in the run of the detection stage where the detector
    returns one animal box at confidence 0.9 and the network returns
    [("Ursus arctos", 0.7), ("Canis lupus", 0.2)] under the threshold 0.5,
    one DetectionRecord is persisted; its species is the species record
    named "Ursus arctos", its classifier confidence is 0.7, its combined
    confidence is (0.9 + 0.7) / 2 = 0.8, its needs-review flag is false,
    and its alternatives list holds the one prediction that passed the
    threshold. *)
Theorem single_animal_detection_run (s3_key : string) (image_id : Z)
    (image_bytes : bytes) (w : world) (d : detection) (cropped_image : bytes)
    (p1 p2 : SpeciesNet.prediction) :
  detect E image_bytes = inr [d] →
  det_category d = MegaDetector.Animal →
  det_confidence d = 0.9%float →
  crop_detection E image_bytes (det_bbox d) = inr cropped_image →
  model_top_k E cropped_image 5 = inr [p1; p2] →
  SpeciesNet.scientific_name p1 = "Ursus arctos" →
  SpeciesNet.confidence p1 = 0.7%float →
  SpeciesNet.scientific_name p2 = "Canis lupus" →
  SpeciesNet.confidence p2 = 0.2%float →
  speciesnet_threshold E = 0.5%float →
  ∃ (resp : response) (w' : world) (detection_id species_id : Z)
    (cols : gmap string pyval) (alternatives : list SpeciesNet.prediction),
    detect_and_store E s3_key image_id image_bytes w = (inr resp, w')
    ∧ statusCode resp = 200
    ∧ body_detections resp = Some 1
    ∧ detections (w_db w') = (detections (w_db w) ++ [Row detection_id cols])%list
    ∧ cols !! "image_id" = Some (PInt image_id)
    ∧ cols !! "detection_type" = Some (PStr "animal")
    ∧ cols !! "species_id" = Some (PInt species_id)
    ∧ (∃ row, In row (species (w_db w')) ∧ row_id row = species_id
              ∧ row_cols row !! "scientific_name" = Some (PStr "Ursus arctos"))
    ∧ cols !! "megadetector_confidence" = Some (PFloat 0.9)
    ∧ cols !! "speciesnet_confidence" = Some (PFloat 0.7)
    ∧ cols !! "overall_confidence" = Some (PFloat 0.8)
    ∧ ((0.9 + 0.7) / 2 = 0.8)%float
    ∧ cols !! "needs_review" = Some (PBool false)
    ∧ cols !! "species_top5" = Some (PJson alternatives)
    ∧ alternatives = [p1]
    ∧ length alternatives = 1%nat.
Proof.
  intros Hdet Hcat Hmd Hcrop Hraw Hn1 Hc1 Hn2 Hc2 Hthr.
  assert (classify E cropped_image 5 = inr [p1]) as Hcls.
  { unfold classify, SpeciesNet.classify. rewrite Hraw. simpl.
    unfold SpeciesNet.above_threshold. by rewrite Hthr, Hc1, Hc2. }
  set (r := get_or_create_species "Ursus arctos"
              (Some (SpeciesNet.common_name p1)) (w_db w)).
  set (record := with_species (fst r) (det_confidence d) [p1] p1
                   (base_record image_id d)).
  assert (build_detection_record E image_id image_bytes d w
          = (inr record, set_db (snd r) w)) as Hbuild.
  { rewrite build_detection_record_cases, Hcat, Hcrop, Hcls, Hn1. reflexivity. }
  destruct (get_or_create_species_spec "Ursus arctos"
              (Some (SpeciesNet.common_name p1)) (w_db w))
    as (Hrow & Himg & Hdets & _). fold r in Hrow, Himg, Hdets.
  destruct (insert_detection_bound record (snd r)
              (with_species_all_bound _ _ _ _ _)) as (cols & Hins & Hcols).
  destruct (with_species_lookups (fst r) (det_confidence d) [p1] p1
              (base_record image_id d)) as (S1 & S2 & S3 & S4 & Hother).
  fold record in S1, S2, S3, S4, Hother.
  assert (∀ p, In p insert_detection_params → ¬ In p species_fields →
               cols !! p = base_record image_id d !! p) as Hbase.
  { intros p Hp Hnp. rewrite Hcols by done. by apply Hother. }
  destruct d as [c m [[[x y] wd] ht]]. simpl in Hcat, Hmd. subst c m.
  destruct (base_record_lookups image_id MegaDetector.Animal 0.9%float x y wd ht)
    as (B1 & B2 & _ & _ & _ & _ & B7 & B8 & _).
  set (d := Detection MegaDetector.Animal 0.9%float (x, y, wd, ht)) in *.
  eexists _, _, (next_detection_id (snd r)), (fst r), cols, [p1].
  split.
  { rewrite detect_and_store_cases, Hdet, process_detections_cons, Hbuild.
    unfold db_call at 1. simpl w_db. rewrite Hins. reflexivity. }
  assert (∀ p, In p insert_detection_params → In p species_fields →
               cols !! p = record !! p) as Hsp by (intros; by apply Hcols).
  unfold insert_detection_params, species_fields in Hbase, Hsp.
  split; [reflexivity|]. split; [reflexivity|]. split.
  { match goal with
    | |- context [update_dynamodb_status E ?k ?s ?m ?w0] =>
        destruct (update_dynamodb_status_returns E k s m w0) as (w3 & Hw3 & Hdb & _);
        rewrite Hw3
    end.
    simpl snd. rewrite Hdb. simpl. by rewrite Hdets. }
  split. { rewrite Hbase, B1; [done|simpl; auto|simpl; intuition discriminate]. }
  split. { rewrite Hbase, B2; [done|simpl; auto|simpl; intuition discriminate]. }
  split. { rewrite Hsp, S1; [done|simpl; auto 20|simpl; auto]. }
  split.
  { destruct Hrow as (row & Hin & Hid & Hname). exists row.
    split; [|done].
    match goal with
    | |- context [update_dynamodb_status E ?k ?s ?m ?w0] =>
        destruct (update_dynamodb_status_returns E k s m w0) as (w3 & Hw3 & Hdb & _);
        rewrite Hw3
    end.
    simpl snd. rewrite Hdb. simpl. done. }
  split. { rewrite Hbase, B7; [done|simpl; auto 20|simpl; intuition discriminate]. }
  split. { rewrite Hsp, S2, Hc1; [done|simpl; auto 20|simpl; auto]. }
  split. { rewrite Hsp, S3, Hc1; [done|simpl; auto 20|simpl; auto]. }
  split; [reflexivity|].
  split. { rewrite Hbase, B8; [done|simpl; auto 20|simpl; intuition discriminate]. }
  split. { rewrite Hsp, S4; [done|simpl; auto 20|simpl; auto]. }
  done.
Qed.

End StageFacts.

(** ** The pipeline: the failure path *)

Section FailureFacts.
Import Database Handler.

Variable E : env.

Lemma update_image_status_failed (image_id : Z) (msg : string) (db : database) :
  marked_failed image_id msg (images db)
    (images (update_image_status image_id "failed" (Some msg) db)).
Proof.
  unfold update_image_status. simpl. split; [by rewrite length_map|].
  generalize (db_clock db). intros now.
  induction (images db) as [|r0 rows IH]; intros [|i] r Hi; simpl in *; try done.
  - injection Hi as ->. destruct (row_id r =? image_id) eqn:Eid.
    + apply Z.eqb_eq in Eid. eexists. split; [reflexivity|]. split; [done|].
      split; [|done]. intros _. unfold set_status. simpl.
      split; by simplify_map_eq.
    + apply Z.eqb_neq in Eid. exists r. split; [done|]. split; [done|].
      split; [done|]. done.
  - by apply IH.
Qed.

Lemma update_image_status_frame (image_id : Z) (status : string)
    (msg : option string) (db : database) :
  detections (update_image_status image_id status msg db) = detections db
  ∧ species (update_image_status image_id status msg db) = species db.
Proof. done. Qed.

(** The [except] block always returns the 500 response. *)
Lemma on_failure_cases (s3_key : string) (image_id : option Z) (e : exn) (w : world) :
  let db' := match image_id with
             | Some id => update_image_status id "failed" (Some (exn_str e)) (w_db w)
             | None => w_db w
             end in
  let w1 := set_db db'
              (add_log ("Error processing image " ++ s3_key ++ ": " ++ exn_str e) w) in
  on_failure E s3_key image_id e w
  = (inr (Response 500 "Failed to process image" None None [] (Some (exn_str e))),
     snd (update_dynamodb_status E s3_key "DETECTION_FAILED"
            (<["error_message" := PStr (exn_str e)]> ∅) w1)).
Proof.
  intros db' w1. unfold on_failure, bind, log_error, ret.
  assert ((match image_id with
           | Some id => db_call (fun db =>
               inr (tt, update_image_status id "failed" (Some (exn_str e)) db))
           | None => fun w0 => (inr tt, w0)
           end) (add_log ("Error processing image " ++ s3_key ++ ": " ++ exn_str e) w)
          = (inr tt, w1)) as ->.
  { subst w1 db'. destruct image_id; [reflexivity|]. by destruct w. }
  destruct (update_dynamodb_status_returns E s3_key "DETECTION_FAILED"
              (<["error_message" := PStr (exn_str e)]> ∅) w1) as (w2 & Hw2 & _).
  by rewrite Hw2.
Qed.

(** The item the failure path writes to the tracking store. *)
Lemma failed_item_lookups (s3_key msg : string) (now : Z) :
  let item := update_data s3_key "DETECTION_FAILED" now
                (<["error_message" := PStr msg]> ∅) in
  item !! "file_key" = Some (PStr s3_key)
  ∧ item !! "processing_status" = Some (PStr "DETECTION_FAILED")
  ∧ item !! "error_message" = Some (PStr msg).
Proof.
  unfold update_data. repeat split.
Qed.

(** Building a record touches neither images nor detections, nor the
    tracking store, nor the clock. *)
Lemma build_detection_record_frame (image_id : Z) (image_bytes : bytes)
    (d : detection) (w : world) :
  let r := build_detection_record E image_id image_bytes d w in
  images (w_db (snd r)) = images (w_db w)
  ∧ detections (w_db (snd r)) = detections (w_db w)
  ∧ w_tracking (snd r) = w_tracking w
  ∧ w_clock (snd r) = w_clock w.
Proof.
  rewrite build_detection_record_cases.
  destruct (det_category d); try done.
  destruct (crop_detection E image_bytes (det_bbox d)) as [e|crop]; [done|].
  destruct (classify E crop 5) as [e|[|top rest]]; try done.
  cbv zeta. simpl snd. simpl w_db.
  destruct (get_or_create_species_spec (SpeciesNet.scientific_name top)
              (Some (SpeciesNet.common_name top)) (w_db w)) as (_ & H1 & H2 & _).
  done.
Qed.

Lemma insert_detection_frame (record : gmap string pyval) (w : world) :
  let r := db_call (insert_detection record) w in
  images (w_db (snd r)) = images (w_db w)
  ∧ (∃ added, detections (w_db (snd r)) = (detections (w_db w) ++ added)%list)
  ∧ w_tracking (snd r) = w_tracking w
  ∧ w_clock (snd r) = w_clock w.
Proof.
  unfold db_call, insert_detection.
  destruct (bind_params insert_detection_params record) as [e|cols]; simpl.
  - split; [done|]. split; [|done]. exists []. by rewrite app_nil_r.
  - split; [done|]. split; [|done]. by eexists.
Qed.

(** The loop never touches the image rows and only appends detection
    rows. *)
Lemma process_detections_frame (image_id : Z) (image_bytes : bytes)
    (detections0 : list detection) (results : list (gmap string pyval)) (w : world) :
  let r := process_detections E image_id image_bytes detections0 results w in
  images (w_db (snd r)) = images (w_db w)
  ∧ (∃ added, detections (w_db (snd r)) = (detections (w_db w) ++ added)%list)
  ∧ w_tracking (snd r) = w_tracking w
  ∧ w_clock (snd r) = w_clock w.
Proof.
  revert results w. induction detections0 as [|d rest IH]; intros results w.
  - simpl. split; [done|]. split; [|done]. exists []. by rewrite app_nil_r.
  - cbv zeta. rewrite process_detections_cons.
    pose proof (build_detection_record_frame image_id image_bytes d w) as Hb.
    cbv zeta in Hb.
    destruct (build_detection_record E image_id image_bytes d w) as [[e|record] w1].
    + simpl in *. destruct Hb as (H1 & H2 & H3 & H4).
      split; [done|]. split; [|done]. exists []. by rewrite app_nil_r.
    + simpl in Hb. destruct Hb as (H1 & H2 & H3 & H4).
      pose proof (insert_detection_frame record w1) as Hi. cbv zeta in Hi.
      destruct (db_call (insert_detection record) w1) as [[e|detection_id] w2].
      * simpl in *. destruct Hi as (I1 & (added & I2) & I3 & I4).
        split; [congruence|]. split; [|split; congruence].
        exists added. congruence.
      * simpl in Hi. destruct Hi as (I1 & (added & I2) & I3 & I4).
        specialize (IH (results ++ [result_entry detection_id d record])%list w2).
        cbv zeta in IH. destruct IH as (J1 & (added' & J2) & J3 & J4).
        split; [congruence|]. split; [|split; congruence].
        exists (added ++ added')%list. rewrite J2, I2, H2. by rewrite app_assoc.
Qed.

(** A failure of the detection stage: the image rows are those of the
    start, detection rows were at most appended; when it is the detector
    that raised, nothing but the log has changed. *)
Lemma detect_and_store_failure (s3_key : string) (image_id : Z)
    (image_bytes : bytes) (w : world) (e : exn) (w2 : world) :
  detect_and_store E s3_key image_id image_bytes w = (inl e, w2) →
  images (w_db w2) = images (w_db w)
  ∧ (∃ added, detections (w_db w2) = (detections (w_db w) ++ added)%list)
  ∧ w_tracking w2 = w_tracking w
  ∧ w_clock w2 = w_clock w
  ∧ (∀ e0, detect E image_bytes = inl e0 → e = e0 ∧ w_db w2 = w_db w).
Proof.
  rewrite detect_and_store_cases.
  destruct (detect E image_bytes) as [e0|dets].
  - intros [= <- <-]. simpl. split; [done|]. split; [|split; [done|]].
    + exists []. by rewrite app_nil_r.
    + split; [done|]. by intros ? [= <-].
  - pose proof (process_detections_frame image_id image_bytes dets [] w) as Hf.
    cbv zeta in Hf.
    destruct (process_detections E image_id image_bytes dets [] w) as [[e1|results] w1];
      [|discriminate].
    intros [= <- <-]. simpl in Hf. destruct Hf as (H1 & H2 & H3 & H4).
    do 4 (split; [done|]). intros e2 [=].
Qed.

(** An exception before the image id is bound leaves the database as it
    was. *)
Lemma acquire_failure (s3_bucket s3_key : string) (w : world) (e : exn) (w1 : world) :
  acquire E s3_bucket s3_key w = (inl e, w1) →
  w_db w1 = w_db w ∧ w_clock w1 = w_clock w + 1.
Proof.
  unfold acquire, bind.
  destruct (update_dynamodb_status_returns E s3_key "PROCESSING" ∅ w)
    as (w0 & -> & Hdb & Hclock).
  destruct (get_object E s3_bucket s3_key) as [e0|image_bytes].
  - by intros [= <- <-].
  - unfold db_call.
    destruct (insert_image (image_record E s3_bucket s3_key image_bytes) (w_db w0))
      as [e1|[id db']]; [|discriminate].
    by intros [= <- <-].
Qed.

(** The [except] block: the response, the durable store and the tracking
    store it leaves. *)
Lemma on_failure_spec (s3_key : string) (image_id : option Z) (e : exn) (w : world) :
  let item := update_data s3_key "DETECTION_FAILED" (w_clock w)
                (<["error_message" := PStr (exn_str e)]> ∅) in
  ∃ w',
    on_failure E s3_key image_id e w
    = (inr (Response 500 "Failed to process image" None None [] (Some (exn_str e))), w')
    ∧ w_db w' = match image_id with
                | Some id => update_image_status id "failed" (Some (exn_str e)) (w_db w)
                | None => w_db w
                end
    ∧ (put_item_fault E item = None → w_tracking w' = <[s3_key := item]> (w_tracking w))
    ∧ (∀ e', put_item_fault E item = Some e' → w_tracking w' = w_tracking w).
Proof.
  intros item. rewrite on_failure_cases. cbv zeta.
  eexists. split; [reflexivity|].
  rewrite update_dynamodb_status_cases. cbv zeta.
  change (w_clock (set_db _ (add_log _ w))) with (w_clock w). fold item.
  destruct (failed_item_lookups s3_key (exn_str e) (w_clock w)) as (Hkey & _).
  fold item in Hkey. rewrite Hkey.
  destruct (put_item_fault E item) as [e'|]; simpl.
  - split; [done|]. split; [done|]. done.
  - split; [done|]. split; [done|]. done.
Qed.

(** C2 (amended): when the detection stage raises (the image id is bound),
    the run returns the failure response; every image row with that id ends
    with status [failed] and the captured text [str(e)] as error message,
    the other image rows are untouched; the tracking item of the key gets
    [DETECTION_FAILED] and the same text whenever the store accepts the
    write (and is left alone when it does not); the failure path creates no
    DetectionRecord, and no row exists beyond those persisted before the
    failing step, which are none when it is the detector that raised.  When
    the exception comes before the image id is bound, the durable store is
    left as it was and only the tracking item is written. *)
Theorem failure_path :
  (∀ (s3_key : string) (image_id : Z) (image_bytes : bytes) (w : world)
     (e : exn) (w2 : world),
     detect_and_store E s3_key image_id image_bytes w = (inl e, w2) →
     let item := update_data s3_key "DETECTION_FAILED" (w_clock w)
                   (<["error_message" := PStr (exn_str e)]> ∅) in
     ∃ (resp : response) (w' : world),
       process_image_from E s3_key image_id image_bytes w = (inr resp, w')
       ∧ statusCode resp = 500
       ∧ body_error resp = Some (exn_str e)
       ∧ marked_failed image_id (exn_str e) (images (w_db w)) (images (w_db w'))
       ∧ detections (w_db w') = detections (w_db w2)
       ∧ (∃ added, detections (w_db w') = (detections (w_db w) ++ added)%list)
       ∧ (∀ e0, detect E image_bytes = inl e0 →
            e = e0 ∧ detections (w_db w') = detections (w_db w))
       ∧ item !! "processing_status" = Some (PStr "DETECTION_FAILED")
       ∧ item !! "error_message" = Some (PStr (exn_str e))
       ∧ (put_item_fault E item = None →
          w_tracking w' = <[s3_key := item]> (w_tracking w))
       ∧ (∀ e', put_item_fault E item = Some e' → w_tracking w' = w_tracking w))
  ∧ (∀ (s3_bucket s3_key : string) (w : world) (e : exn) (w1 : world),
       acquire E s3_bucket s3_key w = (inl e, w1) →
       let item := update_data s3_key "DETECTION_FAILED" (w_clock w + 1)
                     (<["error_message" := PStr (exn_str e)]> ∅) in
       ∃ (resp : response) (w' : world),
         process_image E s3_bucket s3_key w = (inr resp, w')
         ∧ statusCode resp = 500
         ∧ body_error resp = Some (exn_str e)
         ∧ w_db w' = w_db w
         ∧ item !! "processing_status" = Some (PStr "DETECTION_FAILED")
         ∧ item !! "error_message" = Some (PStr (exn_str e))
         ∧ (put_item_fault E item = None →
            w_tracking w' = <[s3_key := item]> (w_tracking w1))
         ∧ (∀ e', put_item_fault E item = Some e' → w_tracking w' = w_tracking w1)).
Proof.
  split.
  - intros s3_key image_id image_bytes w e w2 Hfail item.
    destruct (detect_and_store_failure _ _ _ _ _ _ Hfail)
      as (Himg & Hadded & Htrack & Hclock & Hdet).
    destruct (on_failure_spec s3_key (Some image_id) e w2)
      as (w' & Hon & Hdb & Hput & Hfault).
    rewrite Hclock, Htrack in *. fold item in Hput, Hfault.
    exists (Response 500 "Failed to process image" None None [] (Some (exn_str e))), w'.
    split; [unfold process_image_from, try_except; by rewrite Hfail|].
    split; [done|]. split; [done|].
    split; [rewrite Hdb, <- Himg; apply update_image_status_failed|].
    split; [by rewrite Hdb|].
    split; [by rewrite Hdb|].
    split.
    { intros e0 He0. destruct (Hdet e0 He0) as [-> Hsame].
      split; [done|]. rewrite Hdb. simpl. by rewrite Hsame. }
    destruct (failed_item_lookups s3_key (exn_str e) (w_clock w)) as (_ & H2 & H3).
    done.
  - intros s3_bucket s3_key w e w1 Hfail item.
    destruct (acquire_failure _ _ _ _ _ Hfail) as (Hdb1 & Hclock).
    destruct (on_failure_spec s3_key None e w1) as (w' & Hon & Hdb & Hput & Hfault).
    rewrite Hclock in *. fold item in Hput, Hfault.
    exists (Response 500 "Failed to process image" None None [] (Some (exn_str e))), w'.
    split; [unfold process_image; by rewrite Hfail|].
    split; [done|]. split; [done|]. split; [congruence|].
    destruct (failed_item_lookups s3_key (exn_str e) (w_clock w + 1)) as (_ & H2 & H3).
    done.
Qed.

End FailureFacts.

(** ** Examples of runs *)

Section RunFacts.
Import Database Handler Samples.

(** C3, counterexample: in that run the alternatives list of the persisted
    record has length 1, the entry at 0.2 being below the threshold. *)
Lemma single_animal_alternatives_length :
  let r := detect_and_store (sample_env (inr [animal_left]) (left_only [ursus; canis]))
             sample_key 1 [] sample_world in
  length (detections (w_db (snd r))) = 1%nat
  ∧ (detections (w_db (snd r)) !! 0%nat ≫= fun row => row_cols row !! "species_top5")
    = Some (PJson [ursus])
  ∧ length [ursus] = 1%nat.
Proof. vm_compute. repeat split. Qed.

(** The theorem on the single-detection run, at the sample world. *)
Lemma single_animal_detection_run_witness :
  ∃ (resp : response) (w' : world) (detection_id : Z) (cols : gmap string pyval),
    detect_and_store (sample_env (inr [animal_left]) (left_only [ursus; canis]))
      sample_key 1 [] sample_world = (inr resp, w')
    ∧ detections (w_db w') = [Row detection_id cols]
    ∧ cols !! "overall_confidence" = Some (PFloat 0.8)
    ∧ cols !! "needs_review" = Some (PBool false)
    ∧ cols !! "species_top5" = Some (PJson [ursus]).
Proof.
  destruct (single_animal_detection_run
              (sample_env (inr [animal_left]) (left_only [ursus; canis]))
              sample_key 1 [] sample_world animal_left [Byte.x01] ursus canis
              eq_refl eq_refl eq_refl eq_refl eq_refl eq_refl eq_refl eq_refl
              eq_refl eq_refl)
    as (resp & w' & id & sid & cols & alts & H).
  destruct H as (H1 & _ & _ & H4 & _ & _ & _ & _ & _ & _ & H11 & _ & H13 & H14 & -> & _).
  exists resp, w', id, cols. auto.
Defined.

(** C2, counterexample: two animal boxes, the classifier raising
    [RuntimeError()] on the second crop, and a key-value store that refuses
    writes.  The run ends in the failure response with the image marked
    failed, yet one DetectionRecord row has been created, the stored error
    message is empty, and the tracking store holds no item for the key. *)
Lemma failed_run_keeps_detection :
  let r := process_image_from second_crop_fails sample_key 1 [] sample_world in
  fst r = inr (Response 500 "Failed to process image" None None [] (Some ""))
  ∧ detections (w_db sample_world) = []
  ∧ length (detections (w_db (snd r))) = 1%nat
  ∧ (images (w_db (snd r)) !! 0%nat ≫= fun row => row_cols row !! "processing_status")
    = Some (PStr "failed")
  ∧ (images (w_db (snd r)) !! 0%nat ≫= fun row => row_cols row !! "error_message")
    = Some (PStr "")
  ∧ w_tracking (snd r) !! sample_key = None.
Proof. vm_compute. repeat split. Qed.

(** The theorem on the failure path, at a detector that raises and at an
    object that cannot be fetched. *)
Lemma failure_path_witness :
  (∃ (resp : response) (w' : world),
     process_image_from detector_fails sample_key 1 [] sample_world = (inr resp, w')
     ∧ body_error resp = Some "out of memory"
     ∧ marked_failed 1 "out of memory" (images sample_db) (images (w_db w'))
     ∧ detections (w_db w') = [])
  ∧ (∃ (resp : response) (w' : world),
       process_image
         (Env (fun _ _ => inl (Exn "NoSuchKey" "not found")) (fun _ => "")
              (fun _ => ∅) (fun _ => "") (fun _ => ∅) (fun _ => inr [])
              sample_crop (fun _ _ => inr []) 0.5%float (fun _ => None))
         "bucket" sample_key sample_world = (inr resp, w')
       ∧ body_error resp = Some "not found"
       ∧ w_db w' = sample_db).
Proof.
  split.
  - destruct (failure_path detector_fails) as [H _].
    destruct (H sample_key 1 [] sample_world (Exn "RuntimeError" "out of memory")
                (add_log "Error running MegaDetector: out of memory" sample_world)
                eq_refl)
      as (resp & w' & H1 & _ & H3 & H4 & _ & _ & H7 & _).
    exists resp, w'. split; [exact H1|]. split; [exact H3|]. split; [exact H4|].
    by destruct (H7 _ eq_refl) as [_ ->].
  - match goal with
    | |- ∃ resp w', process_image ?E0 _ _ _ = _ ∧ _ =>
        destruct (failure_path E0) as [_ H]
    end.
    destruct (H "bucket" sample_key sample_world (Exn "NoSuchKey" "not found")
                (World sample_db (<[sample_key :=
                    update_data sample_key "PROCESSING" 5 ∅]> ∅) 6 [])
                eq_refl)
      as (resp & w' & H1 & _ & H3 & H4 & _).
    exists resp, w'. auto.
Defined.

End RunFacts.

(** ** The tracking store cannot alter a run *)

Section ContainmentFacts.
Import Database Handler.

Lemma agree_ret {A : Type} (a : A) : agree (ret a) (ret a).
Proof. intros w w' H. by split. Qed.

Lemma agree_bind {A B : Type} (m m' : M A) (k k' : A → M B) :
  agree m m' → (∀ a, agree (k a) (k' a)) → agree (bind m k) (bind m' k').
Proof.
  intros Hm Hk w w' Hw. unfold bind.
  destruct (Hm w w' Hw) as [Hfst Hsnd].
  destruct (m w) as [[e|a] w1], (m' w') as [[e'|a'] w1']; simpl in *;
    try discriminate.
  - injection Hfst as <-. by split.
  - injection Hfst as <-. by apply Hk.
Qed.

Lemma agree_try_except {A : Type} (m m' : M A) (h h' : exn → M A) :
  agree m m' → (∀ e, agree (h e) (h' e)) →
  agree (try_except m h) (try_except m' h').
Proof.
  intros Hm Hh w w' Hw. unfold try_except.
  destruct (Hm w w' Hw) as [Hfst Hsnd].
  destruct (m w) as [[e|a] w1], (m' w') as [[e'|a'] w1']; simpl in *;
    try discriminate.
  - injection Hfst as <-. by apply Hh.
  - by split.
Qed.

Lemma agree_log_error (msg msg' : string) : agree (log_error msg) (log_error msg').
Proof. intros w w' [H1 H2]. by split. Qed.

Lemma agree_result {A : Type} (r : exn + A) :
  agree (fun w => (r, w)) (fun w => (r, w)).
Proof. intros w w' H. by split. Qed.

Lemma agree_logged {A : Type} (prefix : string) (r : exn + A) :
  agree (logged prefix r) (logged prefix r).
Proof.
  destruct r as [e|a]; simpl; [|apply agree_ret].
  apply agree_bind; [apply agree_log_error|]. intros _. apply agree_result.
Qed.

Lemma agree_db_call {A : Type} (f : database → exn + (A * database)) :
  agree (db_call f) (db_call f).
Proof.
  intros w w' [Hdb Hclock]. unfold db_call. rewrite <- Hdb.
  destruct (f (w_db w)) as [e|[a db']]; simpl; by split.
Qed.

(** Whatever the key-value store does, the status update returns normally
    and acts the same on database and clock. *)
Lemma agree_update_dynamodb_status (E E' : env) (s3_key status : string)
    (metadata : gmap string pyval) :
  agree (update_dynamodb_status E s3_key status metadata)
        (update_dynamodb_status E' s3_key status metadata).
Proof.
  intros w w' [Hdb Hclock].
  destruct (update_dynamodb_status_returns E s3_key status metadata w)
    as (w1 & -> & H1 & H2).
  destruct (update_dynamodb_status_returns E' s3_key status metadata w')
    as (w1' & -> & H1' & H2').
  simpl. split; [done|]. split; congruence.
Qed.

Section OneEnvironment.

Variable E : env.
Variable fault : gmap string pyval → option exn.

Local Abbreviation E' := (with_put_item_fault fault E).

Lemma agree_build_detection_record (image_id : Z) (image_bytes : bytes)
    (d : detection) :
  agree (build_detection_record E image_id image_bytes d)
        (build_detection_record E' image_id image_bytes d).
Proof.
  change (build_detection_record E' image_id image_bytes d)
    with (build_detection_record E image_id image_bytes d).
  unfold build_detection_record.
  destruct (det_category d); try apply agree_ret.
  apply agree_bind; [apply agree_logged|]. intros crop.
  apply agree_bind; [apply agree_logged|]. intros [|top rest]; [apply agree_ret|].
  apply agree_bind; [apply agree_db_call|]. intros species_id. apply agree_ret.
Qed.

Lemma agree_process_detections (image_id : Z) (image_bytes : bytes)
    (detections : list detection) (results : list (gmap string pyval)) :
  agree (process_detections E image_id image_bytes detections results)
        (process_detections E' image_id image_bytes detections results).
Proof.
  revert results. induction detections as [|d rest IH]; intros results.
  - apply agree_ret.
  - simpl. apply agree_bind; [apply agree_build_detection_record|].
    intros record. apply agree_bind; [apply agree_db_call|].
    intros detection_id. apply IH.
Qed.

Lemma agree_detect_and_store (s3_key : string) (image_id : Z) (image_bytes : bytes) :
  agree (detect_and_store E s3_key image_id image_bytes)
        (detect_and_store E' s3_key image_id image_bytes).
Proof.
  unfold detect_and_store.
  apply agree_bind; [apply agree_logged|]. intros detections.
  apply agree_bind; [apply agree_process_detections|]. intros results.
  apply agree_bind; [apply agree_db_call|]. intros _.
  apply agree_bind; [apply agree_update_dynamodb_status|]. intros _.
  apply agree_ret.
Qed.

Lemma agree_on_failure (s3_key : string) (image_id : option Z) (e : exn) :
  agree (on_failure E s3_key image_id e) (on_failure E' s3_key image_id e).
Proof.
  unfold on_failure.
  apply agree_bind; [apply agree_log_error|]. intros _.
  apply agree_bind.
  { destruct image_id; [apply agree_db_call|apply agree_ret]. }
  intros _. apply agree_bind; [apply agree_update_dynamodb_status|]. intros _.
  apply agree_ret.
Qed.

Lemma agree_process_image_from (s3_key : string) (image_id : Z) (image_bytes : bytes) :
  agree (process_image_from E s3_key image_id image_bytes)
        (process_image_from E' s3_key image_id image_bytes).
Proof.
  unfold process_image_from.
  apply agree_try_except; [apply agree_detect_and_store|].
  intros e. apply agree_on_failure.
Qed.

Lemma agree_acquire (s3_bucket s3_key : string) :
  agree (acquire E s3_bucket s3_key) (acquire E' s3_bucket s3_key).
Proof.
  unfold acquire.
  apply agree_bind; [apply agree_update_dynamodb_status|]. intros _.
  apply agree_bind; [apply (agree_result (get_object E s3_bucket s3_key))|].
  intros image_bytes.
  change (image_record E' s3_bucket s3_key image_bytes)
    with (image_record E s3_bucket s3_key image_bytes).
  apply agree_bind; [apply agree_db_call|]. intros image_id. apply agree_ret.
Qed.

Lemma agree_process_image (s3_bucket s3_key : string) :
  agree (process_image E s3_bucket s3_key) (process_image E' s3_bucket s3_key).
Proof.
  intros w w' Hw. unfold process_image.
  destruct (agree_acquire s3_bucket s3_key w w' Hw) as [Hfst Hsnd].
  destruct (acquire E s3_bucket s3_key w) as [[e|[image_id image_bytes]] w1],
           (acquire E' s3_bucket s3_key w') as [[e'|[image_id' image_bytes']] w1'];
    simpl in Hfst, Hsnd; try discriminate.
  - injection Hfst as <-. by apply agree_on_failure.
  - injection Hfst as <- <-. by apply agree_process_image_from.
Qed.

Lemma agree_lambda_handler (s3_bucket s3_key : string) :
  agree (lambda_handler E s3_bucket s3_key) (lambda_handler E' s3_bucket s3_key).
Proof.
  unfold lambda_handler.
  apply agree_try_except; [apply agree_process_image|].
  intros e. apply agree_ret.
Qed.

End OneEnvironment.

(** C10: the status update never raises: whatever the key, the status, the
    metadata and the behaviour of the key-value store, it returns normally
    and leaves the database as it was; when the write raised, the tracking
    table is unchanged and the exception's text is logged.  Hence the
    behaviour of the key-value store alone changes neither what
    [process_image], [lambda_handler] or the stage after the image id
    return, nor the durable store they leave; and [process_image] always
    returns a response. *)
Theorem tracking_failure_contained (E : env) :
  (∀ (s3_key status : string) (metadata : gmap string pyval) (w : world),
     ∃ w',
       update_dynamodb_status E s3_key status metadata w = (inr tt, w')
       ∧ w_db w' = w_db w
       ∧ (∀ e w1,
            update_dynamodb_status_body E s3_key status metadata w = (inl e, w1) →
            w_tracking w' = w_tracking w
            ∧ w_log w'
              = (w_log w ++ [("Failed to update DynamoDB: " ++ exn_str e)%string])%list))
  ∧ (∀ (fault : gmap string pyval → option exn) (s3_bucket s3_key : string)
       (w : world),
       let r := process_image E s3_bucket s3_key w in
       let r' := process_image (with_put_item_fault fault E) s3_bucket s3_key w in
       fst r = fst r' ∧ w_db (snd r) = w_db (snd r'))
  ∧ (∀ (fault : gmap string pyval → option exn) (s3_bucket s3_key : string)
       (w : world),
       let r := lambda_handler E s3_bucket s3_key w in
       let r' := lambda_handler (with_put_item_fault fault E) s3_bucket s3_key w in
       fst r = fst r' ∧ w_db (snd r) = w_db (snd r'))
  ∧ (∀ (fault : gmap string pyval → option exn) (s3_key : string)
       (image_id : Z) (image_bytes : bytes) (w : world),
       let r := process_image_from E s3_key image_id image_bytes w in
       let r' := process_image_from (with_put_item_fault fault E)
                   s3_key image_id image_bytes w in
       fst r = fst r' ∧ w_db (snd r) = w_db (snd r'))
  ∧ (∀ (s3_bucket s3_key : string) (w : world),
       ∃ resp w', process_image E s3_bucket s3_key w = (inr resp, w')).
Proof.
  split; [|split; [|split; [|split]]].
  - intros s3_key status metadata w.
    destruct (update_dynamodb_status_returns E s3_key status metadata w)
      as (w' & Hw' & Hdb & _).
    exists w'. split; [done|]. split; [done|].
    intros e w1 Hbody. revert Hw'.
    unfold update_dynamodb_status, try_except. rewrite Hbody.
    unfold log_error. intros [= <-].
    assert (w_tracking w1 = w_tracking w ∧ w_log w1 = w_log w) as [Ht Hl].
    { unfold update_dynamodb_status_body, bind, utcnow, put_item in Hbody.
      cbv beta iota in Hbody.
      destruct (put_item_fault E _); [by simplify_eq|].
      destruct (_ !! "file_key") as [[]|]; by simplify_eq. }
    simpl. split; [done|]. by rewrite Hl.
  - intros fault s3_bucket s3_key w r r'.
    destruct (agree_process_image E fault s3_bucket s3_key w w) as [H1 [H2 _]];
      [by split|]. by split.
  - intros fault s3_bucket s3_key w r r'.
    destruct (agree_lambda_handler E fault s3_bucket s3_key w w) as [H1 [H2 _]];
      [by split|]. by split.
  - intros fault s3_key image_id image_bytes w r r'.
    destruct (agree_process_image_from E fault s3_key image_id image_bytes w w)
      as [H1 [H2 _]]; [by split|]. by split.
  - intros s3_bucket s3_key w. unfold process_image.
    destruct (acquire E s3_bucket s3_key w) as [[e|[image_id image_bytes]] w1].
    + destruct (on_failure_spec E s3_key None e w1) as (w' & -> & _). by eexists _, _.
    + unfold process_image_from, try_except.
      destruct (detect_and_store E s3_key image_id image_bytes w1) as [[e|resp] w2].
      * destruct (on_failure_spec E s3_key (Some image_id) e w2) as (w' & -> & _).
        by eexists _, _.
      * by eexists _, _.
Qed.

End ContainmentFacts.

(** ** Placeholders the pipeline never binds *)

Section UnboundPlaceholders.
Import Database Handler.

Variable E : env.

Lemma bind_image_record (s3_bucket s3_key : string) (image_bytes : bytes) :
  bind_params insert_image_params (image_record E s3_bucket s3_key image_bytes)
  = inl (KeyError "location_id").
Proof. reflexivity. Qed.

Lemma acquire_raises (s3_bucket s3_key : string) (w : world) :
  ∃ e w1, acquire E s3_bucket s3_key w = (inl e, w1).
Proof.
  unfold acquire, bind.
  destruct (update_dynamodb_status_returns E s3_key "PROCESSING" ∅ w)
    as (w0 & -> & _).
  destruct (get_object E s3_bucket s3_key) as [e0|image_bytes]; [by eexists _, _|].
  unfold db_call, insert_image. rewrite bind_image_record. by eexists _, _.
Qed.

(** X1: the record [process_image] hands to [insert_image] has no
    [location_id], which the query names: the call raises [KeyError]. *)
Theorem image_record_lacks_location_id (s3_bucket s3_key : string)
    (image_bytes : bytes) (db : database) :
  image_record E s3_bucket s3_key image_bytes !! "location_id" = None
  ∧ In "location_id" insert_image_params
  ∧ insert_image (image_record E s3_bucket s3_key image_bytes) db
    = inl (KeyError "location_id").
Proof.
  split; [reflexivity|]. split; [simpl; auto 15|].
  unfold insert_image. by rewrite bind_image_record.
Qed.

(** X2: hence every run of [process_image] ends in the failure response
    before an image id exists, and leaves the database as it found it. *)
Theorem process_image_never_persists (s3_bucket s3_key : string) (w : world) :
  ∃ (e : exn) (w1 : world) (resp : response) (w' : world),
    acquire E s3_bucket s3_key w = (inl e, w1)
    ∧ process_image E s3_bucket s3_key w = (inr resp, w')
    ∧ statusCode resp = 500
    ∧ body_error resp = Some (exn_str e)
    ∧ w_db w' = w_db w.
Proof.
  destruct (acquire_raises s3_bucket s3_key w) as (e & w1 & Hacq).
  destruct (acquire_failure E _ _ _ _ _ Hacq) as (Hdb1 & _).
  destruct (on_failure_spec E s3_key None e w1) as (w' & Hon & Hdb & _).
  exists e, w1. eexists. exists w'. split; [done|].
  split; [unfold process_image; rewrite Hacq; exact Hon|].
  split; [done|]. split; [done|]. congruence.
Qed.

(** X3: a detection record without the species fields cannot be stored
    either: the query names [species_id]. *)
Theorem base_record_lacks_species_id (image_id : Z) (d : detection) (db : database) :
  insert_detection (base_record image_id d) db = inl (KeyError "species_id").
Proof.
  destruct d as [c m [[[x y] wd] ht]]. reflexivity.
Qed.

End UnboundPlaceholders.

(** The theorem on the tracking store, at a store that refuses the write:
    the call returns, the table stays empty, the refusal is logged; and the
    single-animal run returns the same response with that store as with one
    that accepts. *)
Lemma tracking_failure_contained_witness :
  (∃ w',
     Handler.update_dynamodb_status Samples.second_crop_fails
       Samples.sample_key "PROCESSING" ∅ Samples.sample_world = (inr tt, w')
     ∧ Handler.w_tracking w' = ∅
     ∧ Handler.w_log w' = ["Failed to update DynamoDB: throttled"])
  ∧ fst (Handler.process_image_from
           (Samples.sample_env (inr [Samples.animal_left])
              (Samples.left_only [Samples.ursus; Samples.canis]))
           Samples.sample_key 1 [] Samples.sample_world)
    = fst (Handler.process_image_from
             (Handler.with_put_item_fault (fun _ => Some (Exn "ClientError" "throttled"))
                (Samples.sample_env (inr [Samples.animal_left])
                   (Samples.left_only [Samples.ursus; Samples.canis])))
             Samples.sample_key 1 [] Samples.sample_world).
Proof.
  split.
  - destruct (tracking_failure_contained Samples.second_crop_fails) as (H & _).
    destruct (H Samples.sample_key "PROCESSING" ∅ Samples.sample_world)
      as (w' & Hw' & _ & Hraise).
    destruct (Hraise (Exn "ClientError" "throttled")
                (Handler.World Samples.sample_db ∅ 6 []) eq_refl) as [Ht Hl].
    exists w'. split; [exact Hw'|]. split; [exact Ht|exact Hl].
  - destruct (tracking_failure_contained
                (Samples.sample_env (inr [Samples.animal_left])
                   (Samples.left_only [Samples.ursus; Samples.canis])))
      as (_ & _ & _ & H & _).
    exact (proj1 (H (fun _ => Some (Exn "ClientError" "throttled"))
                    Samples.sample_key 1 [] Samples.sample_world)).
Defined.
